(* ===== verification/_CoqProject ===== *)
-Q . S2P
Prelude.v
JsRuntime.v
Canvas.v
Compositor.v
CompositorSpec.v
CombinedFlag.v
Selection.v
Views.v
SelectionSpec.v
System.v
