(* ===== verification/Prelude.v ===== *)
(** * Flag-Jockey: a verification development of the flag compositor

    The repository (TypeScript/React, three files under [src/src/]) lets a
    user select countries and shows one image, the per-channel mean of
    the selected countries' flag images.

    ** The parts of the program and how they interact

    - [src/src/components/CombinedFlag.tsx], [calculateAveragePixels]
      (lines 13-150): the image compositor.  It creates one off-screen
      300x200 canvas, starts one [Image] load per URL, and counts the
      [onload]/[onerror] callbacks in a shared [loadedCount].  Loaded
      images go into a shared JS array [images], by source index, so
      the array can have holes.  The callback that brings
      [loadedCount] to the number of URLs runs the accumulation:
      clear, draw, [getImageData] and add into a [Uint32Array] for
      each image, then [Math.round(sum / images.length)] stored into a
      [Uint8ClampedArray], then [putImageData] and [toDataURL].  It
      resolves or rejects a promise.
    - [CombinedFlag] (same file, lines 7-11 and 153-243): the React
      component.  Its state is [combinedFlagUrl], [loading] and [error].
      An effect calls the compositor whenever the selection changes.
      The [.then]/[.catch] handlers write the outcome back into the
      state, and the render shows one of five views.
    - [src/src/App.tsx] and [src/src/components/CountryList.tsx]: the
      selection state (a list of country codes) and its handlers.  The
      country list keeps a record of which continents are expanded.
      App passes the selection to [CombinedFlag] and the handlers to
      [CountryList].

    ** Files, in dependency order, and what their theorems show

    - [Prelude] (this file): the scope [fj_scope], the tactics [invc]
      and [fj_cases], the hint databases [fj] and [fj_rw], and the
      lemmas the components share: [present] (JS [forEach] over a
      sparse array), [rtrim_none] and [holes_trailing] (the shape of a
      sparse array), folds over permutations ([foldl_permutation_comm])
      and invariants of folds, and one-colour rasters [solid].
    - [JsRuntime]: the JavaScript semantics the compositor relies on:
      promises settled once ([promise], [settle]), assignment into a
      sparse array ([js_array_set]), the [Uint32Array] store
      ([u32_add_assign], modulo 2^32), [Math.round] of a quotient
      ([math_round_div]) and the [Uint8ClampedArray] store
      ([to_uint8_clamped]); their ranges, rounding and exactness.
    - [Canvas]: the canvas 2D context as an interface ([Class Canvas2D]
      with the laws [CanvasLaws]) and a concrete instance, the module
      [SolidCanvas], that satisfies the laws.  The compositor's
      theorems are proved against the interface.
    - [Compositor]: [calculateAveragePixels], its two load callbacks
      [onload] and [onerror] as steps on the [LoadState] record (the
      shared [images], [loadedCount], canvas and promise), and
      [run_loads], the callbacks in any completion order.  Its lemmas
      show that the state after any order of the callbacks is the same
      ([images_after_perm]), that the promise stays pending until the
      last callback, and what the last callback computes
      ([calculateAveragePixels_composite]), and that the canvas loop
      computes the reference sums of the rasters ([accumulate_equiv]).
    - [CompositorSpec]: the specification of spec.md sections 4.1, 7
      and 8 (module [Spec]), the refinement theorem, the failed-source
      divergence, order independence, the join, the section 8
      scenarios, the overflow of the [Uint32Array] sums, and witnesses
      on concrete flags drawn by [SolidCanvas].
    - [CombinedFlag]: the component as a system [Sys] of the state, the
      selection and the requests in flight (a [gmap] from a request
      number to its selection), with [sys_step] on selection changes
      and promise settlements.  It proves an invariant (loading exactly
      while a request is in flight), that stale results are shown
      (a divergence from spec.md section 5), and the refinement of the
      specification's Idle/Resolving/Succeeded/Failed machine
      (module [CFSpec]) for runs without stale settlements.
    - [Selection]: the App and CountryList handlers, [app_step] on UI
      clicks, the invariant of the selection (known codes without
      duplicates), the select-all and deselect-all buttons, and the
      expanded-continent record up to the equivalence [expanded_equiv]
      with its [Proper] instances.
    - [Views]: the renders of CountryList (lines 48-107) and App
      (lines 69-107) as values: continent sections with their keys,
      arrows, disabled buttons and checkbox items, and the App's count,
      toggle label and names list.  Its theorems: every React key is
      unique in every reachable state, a checkbox shows its new state
      after its click, the buttons agree with the checkboxes, and two
      clicks on an unchecked box give the selection back.
    - [SelectionSpec]: the selection as a [gset] of codes ([SelSpec])
      and the refinement theorem: App's handlers implement the
      set-level steps for every sequence of clicks.
    - [System]: the page, [World] = the App state and the CombinedFlag
      system.  A click that calls [setSelectedCountries] re-runs
      CombinedFlag's effect (the dependency is the array, compared by
      reference), and each request's promise is the compositor on the
      selection's flag URLs.  Its theorems: CombinedFlag always renders
      App's selection; a click followed by its request's settlement
      shows the specification's composite (the end-to-end refinement,
      built from the compositor's refinement and the component's
      steps); every request settles, so the spinner stops; the stale
      composite of spec.md section 5 is reachable by two clicks with
      the real compositor; when every flag loads, the order of the
      selection does not change the composite; and Random restarts the
      composite even when it draws the same countries; with data that
      lists no country the page shows the prompt and starts no request.

    ** Bounds and modelling choices

    - Numbers: JS doubles holding integers are [Z].  [Math.round(p / q)]
      is the exact rational rounding [(2p + q) / (2q)].  This is not an
      approximation: [math_round_double] shows that, for [p < 2^52]
      (a [Uint32Array] sum is below [2^32]) and any [q > 0], every
      double the division can return (relative error at most [2^-53],
      exact on multiples of 1/2) rounds to that integer.
    - The canvas is 300x200 as in the code; [raster_len], [buffer_len]
      and [pixel_count] are kept from unfolding ([simpl never]) so
      that the 240000-sample rasters are only computed where a witness
      asks for them, by [vm_compute] on [SolidCanvas].
    - The refinement needs at most 16843009 loaded images: that is the
      largest count for which [255 * count < 2^32], so no [Uint32Array]
      sum wraps.  [white_flags_overflow] shows that 16843010 is too many.
    - The completion order of the image loads is an explicit list of
      source indices, any permutation of [0 .. n-1]: the interleaving
      of the asynchronous callbacks on the single JS thread.  An image
      that never fires a callback is not modelled: the promise then
      stays pending, as in the code.
    - The outcome of a request in [CombinedFlag] is a function of its
      selection, a section variable; [Compositor] supplies it.

    ** Not modelled

    - The outer [try]/[catch] of [calculateAveragePixels] (lines 15
      and 146-148): the [Image] constructor and the assignments in it
      do not throw in a browser.
    - React's scheduling: the render between a state update and the
      effect is not a step; the view is [render] of the state after
      each event.  For a click, React (from version 18) runs the
      effects of the update before the browser paints, so that render
      is never shown; the repository does not pin a React version.  Each request of the page runs its loads in source
      order; [calculateAveragePixels_order_independent] shows that any
      other order gives the same promise.
    - The country data ([src/src/data/countries]) is not in the
      repository and is a section variable; the random comparator of
      [getRandomCountries] is an argument (the order it produced), and
      so are the page's base URL ([resolve], for [new URL(...,
      import.meta.url).href]) and whether the browser loads a flag.
    - CSS, class names and fixed texts, and [console] logging: they do
      not depend on the state.
    - The canvas and image decoding are an interface with laws
      ([Canvas]), not the browser's rasteriser.
*)

From stdpp Require Export base list options.
From Stdlib Require Export ZArith Lia.

Declare Scope fj_scope.
Delimit Scope fj_scope with fj.
Open Scope fj_scope.

Create HintDb fj.
Create Rewrite HintDb fj_rw.

(** ** Tactics *)

Ltac invc H := inversion H; subst; clear H.

(** Case on every [match]/[if] in the goal, recording the equations. *)
Ltac fj_cases := repeat (case_match; simplify_eq/=).

(** ** Option lists: sparse JS arrays *)

Section OptionLists.
Context {A : Type}.

(** [arr.forEach(f)] visits the elements that are present, in index
    order, and skips the holes. *)
Definition present (l : list (option A)) : list A := omap id l.

(** A JS array that results from assignments at a set of indices has
    length [1 + the largest index], so its last element is present.
    [rtrim_none l] is [l] without its trailing holes. *)
Fixpoint rtrim_none (l : list (option A)) : list (option A) :=
  match l with
  | [] => []
  | x :: l' =>
      match rtrim_none l', x with
      | [], None => []
      | r, _ => x :: r
      end
  end.

Lemma present_cons_Some x l : present (Some x :: l) = x :: present l.
Proof. reflexivity. Qed.

Lemma present_cons_None l : present (None :: l) = present l.
Proof. reflexivity. Qed.

Lemma present_app l1 l2 : present (l1 ++ l2) = present l1 ++ present l2.
Proof.
  induction l1 as [|[x|] l1 IH]; simpl; [done| |];
    rewrite ?present_cons_Some, ?present_cons_None, IH; done.
Qed.

Lemma present_rtrim l : present (rtrim_none l) = present l.
Proof.
  induction l as [|[x|] l IH]; [done| |]; cbn [rtrim_none];
    rewrite ?present_cons_Some, ?present_cons_None, <-IH;
    destruct (rtrim_none l); done.
Qed.

Lemma rtrim_none_nil_iff l : rtrim_none l = [] <-> present l = [].
Proof.
  induction l as [|[x|] l IH]; [done| |]; cbn [rtrim_none].
  - rewrite present_cons_Some. destruct (rtrim_none l); split; discriminate.
  - rewrite present_cons_None. destruct (rtrim_none l); [done|].
    split; [discriminate|]. intros Hp. apply IH in Hp. discriminate.
Qed.

Lemma length_rtrim_le l : length (rtrim_none l) <= length l.
Proof.
  induction l as [|x l IH]; [done|]; simpl.
  destruct (rtrim_none l), x; simpl in *; lia.
Qed.

Lemma length_present_le l : length (present l) <= length l.
Proof.
  induction l as [|[x|] l IH]; rewrite ?present_cons_Some, ?present_cons_None;
    simpl; lia.
Qed.

Lemma rtrim_app_None l : rtrim_none (l ++ [None]) = rtrim_none l.
Proof. induction l as [|x l IH]; [done|]. simpl. by rewrite IH. Qed.

Lemma rtrim_app_Some l x : rtrim_none (l ++ [Some x]) = l ++ [Some x].
Proof.
  induction l as [|y l IH]; [done|]. simpl. rewrite IH. by destruct l.
Qed.

(** [rtrim_none] only drops holes. *)
Lemma rtrim_pad l :
  rtrim_none l ++ replicate (length l - length (rtrim_none l)) None = l.
Proof.
  induction l as [|x l IH]; [done|]. simpl.
  destruct (rtrim_none l) as [|y r] eqn:E, x as [x|];
    simpl in *; rewrite ?Nat.sub_0_r in IH; rewrite ?Nat.sub_0_r; by rewrite ?IH.
Qed.

Lemma present_Somes (l : list A) : present (Some <$> l) = l.
Proof. induction l as [|x l IH]; [done|]. by rewrite fmap_cons, present_cons_Some, IH. Qed.

(** Every [None] of [l] lies after every [Some]: failures only at the end. *)
Fixpoint holes_trailing (l : list (option A)) : Prop :=
  match l with
  | [] => True
  | Some _ :: l' => holes_trailing l'
  | None :: l' => present l' = []
  end.

Lemma rtrim_holes_trailing l :
  holes_trailing l -> length (rtrim_none l) = length (present l).
Proof.
  induction l as [|[x|] l IH]; [done| |]; intros H; cbn [rtrim_none holes_trailing] in *.
  - specialize (IH H). rewrite present_cons_Some.
    destruct (rtrim_none l); simpl in *; lia.
  - rewrite present_cons_None, H.
    apply rtrim_none_nil_iff in H. by rewrite H.
Qed.
Lemma holes_trailing_Somes (l : list A) : holes_trailing (Some <$> l).
Proof. induction l as [|x l IH]; [done|]. by rewrite fmap_cons. Qed.

Lemma length_rtrim_Somes (l : list A) : length (rtrim_none (Some <$> l)) = length l.
Proof.
  rewrite rtrim_holes_trailing by apply holes_trailing_Somes. by rewrite present_Somes.
Qed.
End OptionLists.

Lemma present_fmap {A B} (f : A -> B) (l : list (option A)) :
  present ((fun o : option A => f <$> o) <$> l) = f <$> present l.
Proof.
  induction l as [|[x|] l IH]; [done| |]; rewrite fmap_cons.
  - change (f <$> Some x) with (Some (f x)).
    rewrite !present_cons_Some, fmap_cons. f_equal. exact IH.
  - change (f <$> None) with (@None B).
    rewrite !present_cons_None. exact IH.
Qed.


(** ** Folds in any order *)

(** A fold whose steps on distinct elements commute gives the same
    result over any permutation of a duplicate-free list: the same
    updates, done in any order. *)
Lemma foldl_permutation_comm {A B} (f : A -> B -> A) (a : A) (l1 l2 : list B) :
  (forall a x y, x <> y -> f (f a x) y = f (f a y) x) ->
  NoDup l1 -> l1 ≡ₚ l2 -> foldl f a l1 = foldl f a l2.
Proof.
  intros Hcomm Hnd Hp. revert a. induction Hp as [|x l1 l2 _ IH|x y l|l1 l2 l3 H12 IH12 _ IH23];
    intros a; simpl.
  - done.
  - apply IH. by apply NoDup_cons in Hnd as [_ ?].
  - apply NoDup_cons in Hnd as [Hy _]. rewrite Hcomm; [done|].
    intros ->. apply Hy. left.
  - rewrite IH12 by done. apply IH23. by rewrite <-H12.
Qed.

(** A fold whose steps commute gives the same result over any
    permutation of the list. *)
Lemma foldl_perm_comm {A B} (f : A -> B -> A) (a : A) (l1 l2 : list B) :
  (forall a x y, f (f a x) y = f (f a y) x) -> l1 ≡ₚ l2 -> foldl f a l1 = foldl f a l2.
Proof.
  intros Hcomm Hp. revert a.
  induction Hp as [|x l1 l2 _ IH|x y l|l1 l2 l3 _ IH12 _ IH23]; intros a; simpl; auto.
  - by rewrite Hcomm.
  - by rewrite IH12.
Qed.

Lemma present_perm {A} (l1 l2 : list (option A)) : l1 ≡ₚ l2 -> present l1 ≡ₚ present l2.
Proof.
  induction 1 as [|[x|] l1 l2 _ IH|[x|] [y|] l|l1 l2 l3 _ IH12 _ IH23];
    rewrite ?present_cons_Some, ?present_cons_None; try done.
  - by constructor.
  - by constructor.
  - by rewrite IH12.
Qed.

(** An array without holes: every failure is trailing. *)
Lemma Forall_is_Some_holes_trailing {A} (l : list (option A)) :
  Forall is_Some l -> holes_trailing l.
Proof. induction 1 as [|[x|] l [] _ IH]; [done..| |]; naive_solver. Qed.

Lemma zip_with_add_zeros (r : list Z) : zip_with Z.add (replicate (length r) 0%Z) r = r.
Proof. induction r as [|x r IH]; [done|]. simpl. by rewrite IH. Qed.

(** [find] on an append: the first match of the first part, if any. *)
Lemma find_app {A} (f : A -> bool) (l1 l2 : list A) :
  find f (l1 ++ l2) = match find f l1 with Some x => Some x | None => find f l2 end.
Proof. induction l1 as [|x l1 IH]; simpl; [done|]. by destruct (f x). Qed.

(** [filter] keeps what holds of the list, and its own predicate. *)
Lemma Forall_filter_l {A} (P Q : A -> Prop) `{!forall x, Decision (P x)} (l : list A) :
  Forall Q l -> Forall Q (filter P l).
Proof.
  rewrite !Forall_forall. intros HQ x Hx. apply list_elem_of_filter in Hx as [_ Hx]. auto.
Qed.

Lemma Forall_filter_self {A} (P : A -> Prop) `{!forall x, Decision (P x)} (l : list A) :
  Forall P (filter P l).
Proof. apply Forall_forall. intros x Hx. by apply list_elem_of_filter in Hx as [? _]. Qed.

(** A property kept by every step holds after a fold: the invariant of a
    run of steps. *)
Lemma foldl_invariant {A B} (P : A -> Prop) (f : A -> B -> A) (a : A) (l : list B) :
  P a -> (forall a b, P a -> P (f a b)) -> P (foldl f a l).
Proof. intros Ha Hf. revert a Ha. induction l as [|b l IH]; intros a Ha; simpl; auto. Qed.

(** ** Solid rasters *)

(** [solid k px]: [k] copies of the pixel [px], row-major; a flag of a
    single colour. *)
Definition solid {A} (k : nat) (px : list A) : list A := concat (replicate k px).

Lemma length_solid {A} k (px : list A) : length (solid k px) = k * length px.
Proof. unfold solid. induction k as [|k IH]; simpl; [done|]. rewrite length_app, IH. lia. Qed.

Lemma fmap_solid {A B} (f : A -> B) k (px : list A) : f <$> solid k px = solid k (f <$> px).
Proof. unfold solid. induction k as [|k IH]; [done|]. simpl. by rewrite fmap_app, IH. Qed.

Lemma Forall_solid {A} (P : A -> Prop) k px : Forall P px -> Forall P (solid k px).
Proof. intros H. apply Forall_concat, Forall_replicate, H. Qed.

#[export] Hint Rewrite @present_cons_Some @present_cons_None @present_app
  @present_rtrim : fj_rw.
