(* ===== verification/JsRuntime.v ===== *)
(** * The JavaScript runtime the compositor relies on

    Promises, sparse arrays and numbers, as [calculateAveragePixels]
    uses them.

    Promises: a promise is settled once; a later [resolve] or [reject]
    does nothing.

    Arrays: [images[index] = img] past the end of a JS array extends the
    array and leaves holes, and [forEach] skips the holes.

    Numbers:

    [calculateAveragePixels] (src/src/components/CombinedFlag.tsx) does
    its arithmetic on three kinds of JS storage:
    - [pixelSums], a [Uint32Array]: [pixelSums[i] += data[i]] stores
      [ToUint32(pixelSums[i] + data[i])], the sum modulo 2^32;
    - [Math.round(pixelSums[i] / divisor)], a double;
    - [avgData], a [Uint8ClampedArray]: the store clamps to [0, 255],
      and NaN becomes 0.
    This file models the three operations on [Z] and proves their
    range, their rounding and when they do not wrap. *)

From S2P Require Import Prelude.

Open Scope Z_scope.

(** A double as the compositor can produce it: an integer value, an
    infinity (a division by zero), or NaN (0 / 0). *)
Inductive jsnum :=
| JInt (z : Z)
| JPosInf
| JNegInf
| JNaN.

(** A sample value of a [Uint8ClampedArray] or of [ImageData.data]. *)
Definition in_byte (z : Z) : Prop := 0 <= z <= 255.

#[export] Instance in_byte_dec z : Decision (in_byte z).
Proof. unfold in_byte. apply _. Qed.

(** [ToUint32], the conversion of a store into a [Uint32Array]. *)
Definition to_uint32 (z : Z) : Z := z mod 2 ^ 32.

(** [pixelSums[i] += data[i]]. *)
Definition u32_add_assign (s d : Z) : Z := to_uint32 (s + d).

(** [Math.round(p / q)]: the integer nearest to [p / q], halves rounded
    up (towards +infinity); [p / 0] is an infinity or NaN. *)
Definition math_round_div (p q : Z) : jsnum :=
  if q =? 0 then
    (if p =? 0 then JNaN else if 0 <? p then JPosInf else JNegInf)
  else if 0 <? q then JInt ((2 * p + q) / (2 * q))
  else JInt ((2 * (- p) + (- q)) / (2 * (- q))).

(** [ToUint8Clamp], the conversion of a store into a
    [Uint8ClampedArray], on the values [math_round_div] produces. *)
Definition to_uint8_clamped (v : jsnum) : Z :=
  match v with
  | JInt z => Z.max 0 (Z.min 255 z)
  | JPosInf => 255
  | JNegInf | JNaN => 0
  end.

Notation "s '+=u32' d" := (u32_add_assign s d) (at level 50) : fj_scope.

(** ** Range of the stores *)

Lemma to_uint32_range z : 0 <= to_uint32 z < 2 ^ 32.
Proof. apply Z.mod_pos_bound. lia. Qed.

Lemma to_uint8_clamped_byte v : in_byte (to_uint8_clamped v).
Proof. unfold in_byte. destruct v; simpl; lia. Qed.

Lemma Forall_to_uint8_clamped (l : list jsnum) :
  Forall in_byte (to_uint8_clamped <$> l).
Proof. apply Forall_fmap, Forall_forall. intros ??. apply to_uint8_clamped_byte. Qed.

(** No wrap: a sum that fits in 32 bits is stored unchanged. *)
Lemma u32_add_assign_exact s d :
  0 <= s + d < 2 ^ 32 -> s +=u32 d = s + d.
Proof. intros. unfold u32_add_assign, to_uint32. apply Z.mod_small. lia. Qed.

(** Two stores into the same [Uint32Array] cell commute. *)
Lemma u32_add_assign_comm s a b : (s +=u32 a) +=u32 b = (s +=u32 b) +=u32 a.
Proof.
  unfold u32_add_assign, to_uint32.
  rewrite (Z.add_mod_idemp_l (s + a)), (Z.add_mod_idemp_l (s + b)) by lia.
  f_equal. lia.
Qed.

(** ** Rounding *)

Lemma math_round_div_pos p q :
  0 < q -> math_round_div p q = JInt ((2 * p + q) / (2 * q)).
Proof.
  intros Hq. unfold math_round_div.
  destruct (Z.eqb_spec q 0); [lia|]. destruct (Z.ltb_spec 0 q); [done|lia].
Qed.

(** The rounded value [r] is the nearest integer to [p / q], with a
    half rounded up: [r - 1/2 <= p / q < r + 1/2]. *)
Lemma round_div_nearest p q :
  0 < q -> let r := (2 * p + q) / (2 * q) in
  2 * q * r - q <= 2 * p < 2 * q * r + q.
Proof.
  intros Hq r. pose proof (Z.div_mod (2 * p + q) (2 * q)) as Hdm.
  pose proof (Z.mod_pos_bound (2 * p + q) (2 * q)) as Hb. subst r. lia.
Qed.

(** Rounding is exact on multiples. *)
Lemma round_div_mul k q : 0 < q -> (2 * (k * q) + q) / (2 * q) = k.
Proof.
  intros Hq. symmetry. apply (Z.div_unique _ _ _ q); lia.
Qed.

Lemma round_div_one x : (2 * x + 1) / (2 * 1) = x.
Proof. symmetry. apply (Z.div_unique _ _ _ 1); lia. Qed.

(** A mean of bytes rounds to a byte. *)
Lemma round_div_byte p q :
  0 < q -> 0 <= p <= 255 * q -> in_byte ((2 * p + q) / (2 * q)).
Proof.
  intros Hq Hp. unfold in_byte. split.
  - apply Z.div_pos; lia.
  - apply Z.lt_succ_r, Z.div_lt_upper_bound; lia.
Qed.

Lemma to_uint8_clamped_byte_id z : in_byte z -> to_uint8_clamped (JInt z) = z.
Proof. unfold in_byte. simpl. lia. Qed.

(** ** The double division behind [Math.round(p / q)]

    [pixelSums[i] / divisor] (CombinedFlag.tsx line 73) divides two
    doubles and rounds to the nearest double.  A non-negative finite
    double is [a / 2^K] for integers [a >= 0] and [K >= 0].
    [double_div p q a K] says that [a / 2^K] can be the double that
    division returns for [p / q]:
    - its relative error is at most the unit roundoff [2^-53];
    - it is exact when [p / q] is a multiple of [1/2], since such a
      quotient below [2^52] is a double. *)
Definition double_div (p q a K : Z) : Prop :=
  Z.abs (a * q - p * 2 ^ K) * 2 ^ 53 <= p * 2 ^ K /\
  ((2 * p) mod q = 0 -> a * q = p * 2 ^ K).

(** [Math.round(x)] for the double [x = a / 2^K >= 0]: [floor(x + 1/2)]. *)
Definition math_round_dyadic (a K : Z) : Z := (2 * a + 2 ^ K) / 2 ^ (K + 1).

Lemma div_between x d r : 0 < d -> d * r <= x < d * (r + 1) -> x / d = r.
Proof. intros Hd Hx. symmetry. apply (Z.div_unique _ _ _ (x - d * r)); lia. Qed.

(** An error of at most [p * 2^-53] of a quotient below [2^52] is less
    than half the spacing [1 / 2^(K+1)] it is compared with. *)
Lemma small_error (D p T M : Z) :
  0 < T -> 0 < M -> 2 * p < M -> Z.abs D * M <= p * T -> 2 * Z.abs D < T.
Proof. intros. nia. Qed.

(** C12.  The exact rounding of [math_round_div] is what the code
    computes with doubles: for a sum [p] below [2^52] (a [Uint32Array]
    sum is below [2^32]) and any positive divisor [q], every double [x]
    the division can return for [p / q] has [Math.round(x)] equal to the
    integer nearest to [p / q], halves rounded up.  So the model's
    [Math.round] is not an approximation for any input the code sees. *)
Theorem math_round_double p q a K :
  0 <= p < 2 ^ 52 -> 0 < q -> 0 <= K -> double_div p q a K ->
  math_round_div p q = JInt (math_round_dyadic a K).
Proof.
  intros Hp Hq HK [Herr Hex]. rewrite math_round_div_pos by done. f_equal.
  unfold math_round_dyadic.
  pose proof (round_div_nearest p q Hq) as Hr. cbv zeta in Hr.
  set (r := (2 * p + q) / (2 * q)) in *.
  assert (0 < 2 ^ K) as HT by (apply Z.pow_pos_nonneg; lia).
  set (T := 2 ^ K) in *.
  rewrite Z.pow_add_r, Z.pow_1_r by lia. fold T.
  pose proof (small_error (a * q - p * T) p T (2 ^ 53) HT ltac:(lia) ltac:(lia) Herr) as Hs.
  symmetry. apply div_between; [lia|]. split.
  - destruct (Z.eq_dec (2 * q * r - q) (2 * p)) as [E|E]; [|nia].
    assert (a * q = p * T) as Haq.
    { apply Hex. rewrite <-E. replace (2 * q * r - q) with ((2 * r - 1) * q) by ring.
      apply Z.mod_mul. lia. }
    nia.
  - nia.
Qed.

(** ** Promises *)

Inductive promise (A E : Type) :=
| Pending
| Fulfilled (a : A)
| Rejected (e : E).
Arguments Pending {A E}.
Arguments Fulfilled {A E} a.
Arguments Rejected {A E} e.

(** [resolve(v)] / [reject(e)] inside a promise executor: only the first
    call settles the promise. *)
Definition settle {A E} (p r : promise A E) : promise A E :=
  match p with
  | Pending => r
  | _ => p
  end.

(** ** Sparse arrays *)

(** [l[i] = x] on a JS array of [option]s (a hole is [None]). *)
Fixpoint js_array_set {A} (l : list (option A)) (i : nat) (x : A) : list (option A) :=
  match l, i with
  | [], O => [Some x]
  | [], S i' => None :: js_array_set [] i' x
  | _ :: l', O => Some x :: l'
  | y :: l', S i' => y :: js_array_set l' i' x
  end.

Lemma js_array_set_comm {A} (l : list (option A)) i j x y :
  i <> j ->
  js_array_set (js_array_set l i x) j y = js_array_set (js_array_set l j y) i x.
Proof.
  revert l j. induction i as [|i IH]; intros [|z l] [|j] Hij; simpl;
    try done; f_equal; auto.
Qed.

(** Past the end, the assignment pads with holes. *)
Lemma js_array_set_past_end {A} (l : list (option A)) i x :
  (length l <= i)%nat ->
  js_array_set l i x = l ++ replicate (i - length l) None ++ [Some x].
Proof.
  revert i. induction l as [|y l IH]; intros i Hi; simpl in *.
  - rewrite Nat.sub_0_r. induction i as [|i IHi]; simpl; [done|]. rewrite IHi by lia. done.
  - destruct i as [|i]; [lia|]. simpl. rewrite IH by lia. done.
Qed.

#[export] Hint Resolve to_uint32_range to_uint8_clamped_byte
  Forall_to_uint8_clamped round_div_byte : fj.

(** [255 / 2 = 127.5] is the double [255 / 2^1]; [Math.round] gives 128. *)
Lemma math_round_double_witness :
  0 <= 255 < 2 ^ 52 /\ 0 < 2 /\ 0 <= 1 /\ double_div 255 2 255 1 /\
  math_round_div 255 2 = JInt (math_round_dyadic 255 1).
Proof.
  assert (double_div 255 2 255 1) as Hd by (split; [vm_compute; discriminate|reflexivity]).
  split; [lia|]. split; [lia|]. split; [lia|]. split; [exact Hd|].
  apply math_round_double; [lia|lia|lia|exact Hd].
Defined.
