(* ===== verification/Canvas.v ===== *)
(** * The canvas 2D context, as an interface

    [calculateAveragePixels] uses one off-screen canvas of
    [document.createElement('canvas')] through these calls:
    [canvas.width = w; canvas.height = h], [ctx.clearRect(0, 0, w, h)],
    [ctx.drawImage(img, 0, 0, w, h)], [ctx.getImageData(0, 0, w, h).data],
    [ctx.putImageData(imageData, 0, 0)] and [canvas.toDataURL()].  Every
    call covers the whole canvas, so each is one operation of
    [Canvas2D].  [CanvasLaws] states what the compositor relies on.
    - Drawing an image, stretched onto a cleared canvas, gives a raster
      that depends only on the image and the canvas size, not on what
      was drawn before.
    - The raster has [4 * w * h] bytes.
    - [getImageData] reads back what [putImageData] wrote.
    - [toDataURL] encodes the pixels.
    The instance [SolidCanvas] at the end shows that the laws can be
    satisfied; it draws flags of one colour. *)

From stdpp Require Import strings.
From Stdlib Require Import Ascii.
From S2P Require Import Prelude JsRuntime.

Open Scope Z_scope.

(** The number of samples of a [w x h] RGBA raster. *)
Definition raster_len (wh : Z * Z) : nat := (Z.to_nat (wh.1 * wh.2) * 4)%nat.
(** Never compute the length of a real canvas (240000 in unary). *)
#[global] Arguments raster_len : simpl never.

Class Canvas2D (Img C : Type) := {
  canvas_resize : Z -> Z -> C -> C;
  canvas_dims : C -> Z * Z;
  clearRect : C -> C;
  drawImage : Img -> C -> C;
  getImageData : C -> list Z;
  putImageData : list Z -> C -> C;
  toDataURL : C -> string;
  rasterize : Z * Z -> Img -> list Z;
  encodePNG : list Z -> string;
}.

Class CanvasLaws (Img C : Type) `{!Canvas2D Img C} := {
  dims_resize w h c :
    0 <= w -> 0 <= h -> canvas_dims (canvas_resize w h c) = (w, h);
  dims_clearRect c : canvas_dims (clearRect c) = canvas_dims c;
  dims_drawImage img c : canvas_dims (drawImage img c) = canvas_dims c;
  dims_putImageData d c : canvas_dims (putImageData d c) = canvas_dims c;
  getImageData_draw_cleared img c :
    getImageData (drawImage img (clearRect c)) = rasterize (canvas_dims c) img;
  length_rasterize wh img : length (rasterize wh img) = raster_len wh;
  rasterize_bytes wh img : Forall in_byte (rasterize wh img);
  getImageData_putImageData d c :
    length d = raster_len (canvas_dims c) -> Forall in_byte d ->
    getImageData (putImageData d c) = d;
  toDataURL_encode c : toDataURL c = encodePNG (getImageData c);
}.

#[export] Hint Rewrite @dims_resize @dims_clearRect @dims_drawImage
  @dims_putImageData @getImageData_draw_cleared @length_rasterize
  @toDataURL_encode : fj_rw.
#[export] Hint Resolve rasterize_bytes : fj.

(** ** A concrete canvas for flags of one colour *)

Module SolidCanvas.

(** A colour [(r, g, b, a)]; an image of that colour everywhere. *)
Definition rgba : Type := Z * Z * Z * Z.

Record surface := mkSurface { sf_dims : Z * Z; sf_data : list Z }.

Definition byte_clamp (z : Z) : Z := Z.max 0 (Z.min 255 z).

Definition fit (n : nat) (l : list Z) : list Z := take n (l ++ replicate n 0).

Definition pixel_bytes (c : rgba) : list Z :=
  let '(r, g, b, a) := c in byte_clamp <$> [r; g; b; a].

(** A transparent pixel reads back as [0, 0, 0, 0]. *)
Definition raster (wh : Z * Z) (c : rgba) : list Z :=
  if decide (byte_clamp c.2 = 0) then replicate (raster_len wh) 0
  else solid (Z.to_nat (wh.1 * wh.2)) (pixel_bytes c).

Definition read (s : surface) : list Z :=
  fit (raster_len (sf_dims s)) (byte_clamp <$> sf_data s).

(** One character per sample: an injective encoding. *)
Fixpoint encode_bytes (l : list Z) : string :=
  match l with
  | [] => EmptyString
  | z :: l' => String (ascii_of_nat (Z.to_nat z)) (encode_bytes l')
  end.

Definition data_url (l : list Z) : string :=
  String.append "data:image/x-rgba," (encode_bytes l).

#[export] Instance canvas : Canvas2D rgba surface := {
  canvas_resize w h _ := mkSurface (w, h) (replicate (raster_len (w, h)) 0);
  canvas_dims := sf_dims;
  clearRect s := mkSurface (sf_dims s) (replicate (raster_len (sf_dims s)) 0);
  drawImage c s :=
    if decide (byte_clamp c.2 = 0) then s
    else mkSurface (sf_dims s) (raster (sf_dims s) c);
  getImageData := read;
  putImageData d s := mkSurface (sf_dims s) d;
  toDataURL s := data_url (read s);
  rasterize := raster;
  encodePNG := data_url;
}.

Lemma byte_clamp_id z : in_byte z -> byte_clamp z = z.
Proof. unfold in_byte, byte_clamp. lia. Qed.

Lemma fmap_byte_clamp_id l : Forall in_byte l -> byte_clamp <$> l = l.
Proof.
  intros H. rewrite <-(list_fmap_id l) at 2. apply Forall_fmap_ext.
  eapply Forall_impl; [exact H|]. apply byte_clamp_id.
Qed.

Lemma byte_clamp_byte z : in_byte (byte_clamp z).
Proof. unfold in_byte, byte_clamp. lia. Qed.

Lemma fit_id n l : length l = n -> fit n l = l.
Proof. intros <-. apply take_app_length. Qed.

Lemma length_raster wh c : length (raster wh c) = raster_len wh.
Proof.
  unfold raster. case_decide; [apply length_replicate|].
  rewrite length_solid. destruct c as [[[??]?]?]. reflexivity.
Qed.

Lemma raster_bytes wh c : Forall in_byte (raster wh c).
Proof.
  unfold raster. case_decide.
  - apply Forall_replicate. unfold in_byte. lia.
  - apply Forall_solid. destruct c as [[[??]?]?]. simpl.
    repeat constructor; apply byte_clamp_byte.
Qed.

Lemma read_exact s :
  length (sf_data s) = raster_len (sf_dims s) -> Forall in_byte (sf_data s) ->
  read s = sf_data s.
Proof. intros Hl Hb. unfold read. rewrite fmap_byte_clamp_id by done. by apply fit_id. Qed.

#[export] Instance canvas_laws : CanvasLaws rgba surface.
Proof.
  split; try (intros; reflexivity).
  - intros img s. simpl. by case_decide.
  - intros img [wh d]. simpl. case_decide.
    + rewrite read_exact; simpl.
      * unfold raster. by rewrite decide_True.
      * apply length_replicate.
      * apply Forall_replicate. unfold in_byte. lia.
    + apply read_exact; [apply length_raster | apply raster_bytes].
  - intros. apply length_raster.
  - intros. apply raster_bytes.
  - intros d [wh d0] Hl Hb. by apply read_exact.
Qed.

End SolidCanvas.
