(* ===== verification/Compositor.v ===== *)
(** * The image compositor: [calculateAveragePixels]

    Source: src/src/components/CombinedFlag.tsx, lines 13-150.

    The function creates a 300x200 canvas and one [Image] per URL.  The
    image callbacks share three variables: the sparse array [images],
    the counter [loadedCount] and the promise.  [onload] stores the image
    at its source index and increments the counter; [onerror] only
    increments it.  The callback that brings the counter to
    [imageUrls.length] processes the images: clear, draw, read and add
    into a [Uint32Array], for each present image in index order; then
    [Math.round(sum / images.length)] into a [Uint8ClampedArray]; then
    [putImageData] and [toDataURL].

    [LoadState] is the shared state and [onload] and [onerror] are steps
    on it.  [run_loads] runs the callbacks in a given completion order.
    [calculateAveragePixels] is the whole function: given the canvas
    context (or [None] when [getContext] returns null), the decoder (a
    URL decodes to [Some] image or fires [onerror]), the URLs and the
    completion order, it returns the state of the promise once every
    callback has run.

    [accumulate_equiv] shows that the loop over the shared canvas
    computes the reference sums of the images' own rasters. *)

From stdpp Require Import strings.
From S2P Require Import Prelude JsRuntime Canvas.

Open Scope Z_scope.
Set Default Proof Using "All".

(** The errors the promise is rejected with. *)
Inductive CompositeError :=
| CanvasContextError  (** [new Error('Could not get canvas context')], line 20 *)
| NoImagesError       (** [new Error('No images to process')], line 35 *)
| AllImagesFailed     (** [new Error('All images failed to load')], line 135 *)
| ImageDataError.     (** [new ImageData] throws; caught at lines 84 and 131 *)

Section Compositor.
Context {Img C : Type} `{!Canvas2D Img C}.

(** Lines 25-26. *)
Definition width : Z := 300.
Definition height : Z := 200.

(** [width * height * 4], the length of [pixelSums] and [avgData]. *)
Definition buffer_len : nat := raster_len (width, height).
#[global] Arguments buffer_len : simpl never.

(** [width * height], the number of pixels. *)
Definition pixel_count : nat := Z.to_nat (width * height).
#[global] Arguments pixel_count : simpl never.

Record LoadState := mkLoadState {
  ls_images : list (option Img);
  ls_loadedCount : nat;
  ls_canvas : C;
  ls_promise : promise string CompositeError;
}.

(** Lines 63-65: [for (i < data.length) pixelSums[i] += data[i]].  A
    write past the end of a typed array is dropped. *)
Fixpoint add_into (sums data : list Z) : list Z :=
  match sums, data with
  | s :: ss, d :: ds => (s +=u32 d) :: add_into ss ds
  | _, _ => sums
  end.

(** Lines 53-66, the body of [images.forEach]: clear, draw the image
    stretched to the canvas, read the pixels back, add them. *)
Definition accumulate_image (acc : C * list Z) (img : Img) : C * list Z :=
  let '(c, sums) := acc in
  let c' := drawImage img (clearRect c) in
  (c', add_into sums (getImageData c')).

(** Lines 50-66: a fresh [Uint32Array], then [images.forEach]. *)
Definition accumulate (c : C) (images : list (option Img)) : C * list Z :=
  foldl accumulate_image (c, replicate buffer_len 0) (present images).

(** Lines 69-74: [avgData[i] = Math.round(pixelSums[i] / divisor)]. *)
Definition average (sums : list Z) (divisor : Z) : list Z :=
  (fun s => to_uint8_clamped (math_round_div s divisor)) <$> sums.

(** Line 77: [new ImageData(avgData, width, height)] throws unless the
    data has [4 * width * height] samples. *)
Definition new_ImageData (data : list Z) (w h : Z) : option (list Z) :=
  if decide (length data = raster_len (w, h)) then Some data else None.

(** Lines 48-86 (and the identical lines 95-133): process the images,
    resolve with the data URL or reject with the caught error. *)
Definition process_images (c : C) (images : list (option Img))
    : C * promise string CompositeError :=
  let '(c1, sums) := accumulate c images in
  let avg := average sums (Z.of_nat (length images)) in
  match new_ImageData avg width height with
  | None => (c1, Rejected ImageDataError)
  | Some d => let c2 := putImageData d c1 in (c2, Fulfilled (toDataURL c2))
  end.

(** Settle the shared promise with the outcome of [process_images]. *)
Definition finish (st : LoadState) (images : list (option Img)) (count : nat)
    : LoadState :=
  let '(c, r) := process_images (ls_canvas st) images in
  mkLoadState images count c (settle (ls_promise st) r).

(** Lines 42-88, [img.onload] for the image of source index [index],
    with [n = imageUrls.length]. *)
Definition onload (n index : nat) (img : Img) (st : LoadState) : LoadState :=
  let images := js_array_set (ls_images st) index img in
  let loaded := S (ls_loadedCount st) in
  if decide (loaded = n) then finish st images loaded
  else mkLoadState images loaded (ls_canvas st) (ls_promise st).

(** Lines 90-137, [img.onerror]. *)
Definition onerror (n : nat) (st : LoadState) : LoadState :=
  let images := ls_images st in
  let loaded := S (ls_loadedCount st) in
  if decide (loaded = n /\ (0 < length images)%nat) then finish st images loaded
  else if decide (loaded = n /\ length images = 0%nat) then
    mkLoadState images loaded (ls_canvas st)
      (settle (ls_promise st) (Rejected AllImagesFailed))
  else mkLoadState images loaded (ls_canvas st) (ls_promise st).

(** The callback of the load of source [index] (line 139 starts it):
    [onload] if its URL decodes, [onerror] otherwise. *)
Definition load_event (decode : string -> option Img) (urls : list string)
    (st : LoadState) (index : nat) : LoadState :=
  match urls !! index with
  | Some url =>
      match decode url with
      | Some img => onload (length urls) index img st
      | None => onerror (length urls) st
      end
  | None => st
  end.

(** The callbacks in completion order [order]. *)
Definition run_loads (decode : string -> option Img) (urls : list string)
    (order : list nat) (st : LoadState) : LoadState :=
  foldl (load_event decode urls) st order.

(** Lines 13-150: the promise once every callback has run. *)
Definition calculateAveragePixels (ctx : option C)
    (decode : string -> option Img) (urls : list string) (order : list nat)
    : promise string CompositeError :=
  match ctx with
  | None => Rejected CanvasContextError
  | Some c0 =>
      let c := canvas_resize width height c0 in
      match urls with
      | [] => Rejected NoImagesError
      | _ => ls_promise (run_loads decode urls order (mkLoadState [] 0 c Pending))
      end
  end.

End Compositor.

(** ** What the callbacks compute *)

Section CompositorProofs.
Context {Img C : Type} `{!Canvas2D Img C} `{!CanvasLaws Img C}.

Implicit Types (outs arr : list (option Img)) (c : C).

(** The [images] array after the [onload] of source [i], for the decode
    outcomes [outs] of the sources. *)
Definition store_image outs arr (i : nat) : list (option Img) :=
  match outs !! i with
  | Some (Some img) => js_array_set arr i img
  | _ => arr
  end.

Definition images_after outs (done : list nat) : list (option Img) :=
  foldl (store_image outs) [] done.

(** The sums of [pixelSums] after adding the rasters of [imgs]. *)
Definition sum_rasters (wh : Z * Z) (imgs : list Img) : list Z :=
  foldl (fun s img => add_into s (rasterize wh img)) (replicate buffer_len 0) imgs.

(** The outcome of the compositor on the decode outcomes [outs]: the
    divisor is the length of the sparse array, [1 + the last index
    that loaded]. *)
(** The sums of exact (unbounded) integers, for comparison. *)
Definition column_sums (n : nat) (rs : list (list Z)) : list Z :=
  foldl (zip_with Z.add) (replicate n 0) rs.

Definition composite_result outs : promise string CompositeError :=
  if decide (present outs = []) then Rejected AllImagesFailed
  else Fulfilled (encodePNG (average (sum_rasters (width, height) (present outs))
                               (Z.of_nat (length (rtrim_none outs))))).

Lemma length_add_into s d : length (add_into s d) = length s.
Proof. revert d. induction s as [|x s IH]; intros [|y d]; simpl; auto. Qed.

Lemma length_sum_rasters wh imgs : length (sum_rasters wh imgs) = buffer_len.
Proof.
  unfold sum_rasters. generalize (replicate buffer_len 0) (length_replicate buffer_len 0).
  induction imgs as [|img imgs IH]; intros s Hs; simpl; [done|].
  apply IH. by rewrite length_add_into.
Qed.

(** Adding two rasters into the sums in either order gives the same
    sums: the [Uint32Array] additions commute. *)
Lemma add_into_comm s d1 d2 : add_into (add_into s d1) d2 = add_into (add_into s d2) d1.
Proof.
  revert d1 d2. induction s as [|x s IH]; intros [|y1 d1] [|y2 d2]; simpl; try done.
  by rewrite IH, u32_add_assign_comm.
Qed.

Lemma sum_rasters_perm wh imgs1 imgs2 :
  imgs1 ≡ₚ imgs2 -> sum_rasters wh imgs1 = sum_rasters wh imgs2.
Proof. apply foldl_perm_comm. intros. apply add_into_comm. Qed.

(** Without holes, the outcome depends only on the multiset of the
    decoded images, not on their positions. *)
Lemma composite_result_perm outs1 outs2 :
  outs1 ≡ₚ outs2 -> Forall is_Some outs1 -> composite_result outs1 = composite_result outs2.
Proof.
  intros Hp Hs. pose proof (present_perm _ _ Hp) as Hpp.
  assert (Forall is_Some outs2) as Hs2 by by rewrite <-Hp.
  unfold composite_result.
  rewrite !rtrim_holes_trailing by by apply Forall_is_Some_holes_trailing.
  rewrite (sum_rasters_perm _ _ _ Hpp), (Permutation_length Hpp).
  destruct (decide (present outs1 = [])) as [E|E];
    [rewrite decide_True|rewrite decide_False]; try done.
  - rewrite E in Hpp. by apply Permutation_nil.
  - intros E2. apply E. rewrite E2 in Hpp. by apply Permutation_nil, Permutation_sym.
Qed.

Lemma average_bytes sums q : Forall in_byte (average sums q).
Proof.
  apply Forall_fmap, Forall_forall. intros ??. apply to_uint8_clamped_byte.
Qed.

(** The forEach loop keeps the canvas size, and each image adds its
    raster: clearing first makes the read independent of earlier draws. *)
Lemma accumulate_fold wh imgs c s :
  canvas_dims c = wh ->
  let r := foldl accumulate_image (c, s) imgs in
  canvas_dims r.1 = wh /\
  r.2 = foldl (fun s img => add_into s (rasterize wh img)) s imgs.
Proof.
  revert c s. induction imgs as [|img imgs IH]; intros c s Hc; simpl; [done|].
  rewrite getImageData_draw_cleared, Hc. apply IH.
  by rewrite dims_drawImage, dims_clearRect.
Qed.

(** C13.  The accumulation loop of lines 53-66, which draws each image
    on the shared canvas and reads the canvas back, computes the
    reference sums of the images' own rasters, whatever the canvas
    held before: [ctx.clearRect] before each [ctx.drawImage] makes each
    read independent of the earlier draws.  The canvas keeps its
    300x200 size. *)
Theorem accumulate_equiv c images :
  canvas_dims c = (width, height) ->
  (accumulate c images).2 = sum_rasters (width, height) (present images) /\
  canvas_dims (accumulate c images).1 = (width, height).
Proof.
  intros Hc. unfold accumulate.
  destruct (accumulate_fold (width, height) (present images) c (replicate buffer_len 0) Hc)
    as [Hd Hs].
  split; [exact Hs|exact Hd].
Qed.

Lemma process_images_result c images :
  canvas_dims c = (width, height) ->
  (process_images c images).2 =
    Fulfilled (encodePNG (average (sum_rasters (width, height) (present images))
                           (Z.of_nat (length images)))).
Proof.
  intros Hc. unfold process_images, accumulate.
  destruct (accumulate_fold (width, height) (present images) c
              (replicate buffer_len 0) Hc) as [Hd Hs].
  destruct (foldl _ _ _) as [c1 sums]; cbn [fst snd] in *. subst sums.
  fold (sum_rasters (width, height) (present images)).
  unfold new_ImageData. rewrite decide_True.
  2: { unfold average. rewrite length_fmap, length_sum_rasters. done. }
  cbn [snd]. rewrite toDataURL_encode, getImageData_putImageData; [done| |].
  - unfold average. rewrite length_fmap, length_sum_rasters, Hd. done.
  - apply average_bytes.
Qed.

(** ** The array of loaded images, whatever the completion order *)

Lemma store_image_comm outs arr i j :
  i <> j ->
  store_image outs (store_image outs arr i) j = store_image outs (store_image outs arr j) i.
Proof.
  intros Hij. unfold store_image.
  destruct (outs !! i) as [[x|]|], (outs !! j) as [[y|]|]; try done.
  by apply js_array_set_comm.
Qed.

Lemma images_after_perm outs l1 l2 :
  NoDup l1 -> l1 ≡ₚ l2 -> images_after outs l1 = images_after outs l2.
Proof.
  intros. apply foldl_permutation_comm; [|done..]. intros. by apply store_image_comm.
Qed.

(** In source order, the array is the outcomes without trailing holes. *)
Lemma images_after_seq outs k :
  (k <= length outs)%nat -> images_after outs (seq 0 k) = rtrim_none (take k outs).
Proof.
  induction k as [|k IH]; intros Hk; [done|].
  destruct (lookup_lt_is_Some_2 outs k) as [o Ho]; [lia|].
  assert (length (take k outs) = k) as Hl by (rewrite length_take; lia).
  rewrite seq_S, Nat.add_0_l, (take_S_r _ _ _ Ho). unfold images_after. rewrite foldl_snoc.
  fold (images_after outs (seq 0 k)). rewrite IH by lia.
  unfold store_image. rewrite Ho. destruct o as [img|].
  - rewrite rtrim_app_Some, js_array_set_past_end.
    + rewrite app_assoc. f_equal.
      pose proof (rtrim_pad (take k outs)) as P. by rewrite Hl in P.
    + pose proof (length_rtrim_le (take k outs)). lia.
  - by rewrite rtrim_app_None.
Qed.

(** The images array once every source has settled. *)
Lemma images_after_all outs order :
  order ≡ₚ seq 0 (length outs) -> images_after outs order = rtrim_none outs.
Proof.
  intros Hp. rewrite (images_after_perm _ _ (seq 0 (length outs))).
  - rewrite images_after_seq by done. by rewrite take_ge.
  - rewrite Hp. apply NoDup_seq.
  - done.
Qed.

(** ** The callbacks before the last one *)

(** A callback that does not complete the count only records the
    image and counts. *)
Lemma run_loads_counting decode urls pre (st : LoadState) :
  (ls_loadedCount st + length pre < length urls)%nat ->
  Forall (fun i => i < length urls)%nat pre ->
  run_loads decode urls pre st =
    mkLoadState (foldl (store_image (decode <$> urls)) (ls_images st) pre)
      (ls_loadedCount st + length pre) (ls_canvas st) (ls_promise st).
Proof.
  revert st. induction pre as [|i pre IH]; intros st Hn Hi.
  - destruct st. simpl. by rewrite Nat.add_0_r.
  - apply Forall_cons in Hi as [Hi Hpre]. simpl in Hn.
    destruct (lookup_lt_is_Some_2 urls i Hi) as [url Hu].
    unfold run_loads. simpl. unfold load_event at 2. rewrite Hu.
    unfold store_image at 2. rewrite list_lookup_fmap, Hu. simpl.
    destruct (decode url) as [img|];
      [unfold onload; rewrite decide_False by lia
      |unfold onerror; rewrite decide_False, decide_False by lia];
      (etrans; [apply IH; simpl; [lia|done]|]); simpl; f_equal; lia.
Qed.

(** The last callback settles the promise with the images of every
    source. *)
Lemma last_event_promise decode urls arr c i :
  (i < length urls)%nat -> urls <> [] ->
  let st := mkLoadState arr (pred (length urls)) c Pending in
  let images := store_image (decode <$> urls) arr i in
  ls_promise (load_event decode urls st i) =
    if decide (images = []) then Rejected AllImagesFailed
    else (process_images c images).2.
Proof.
  intros Hi Hne st images. subst st images.
  assert (S (pred (length urls)) = length urls) as Hn
    by (destruct urls; simpl in *; [done|lia]).
  destruct (lookup_lt_is_Some_2 urls i Hi) as [url Hu].
  unfold load_event, store_image. rewrite Hu, list_lookup_fmap, Hu. simpl.
  destruct (decode url) as [img|]; unfold onload, onerror, finish; cbn [ls_loadedCount ls_images ls_canvas ls_promise].
  - rewrite decide_True by done. rewrite decide_False.
    + destruct (process_images _ _); done.
    + destruct arr, i; simpl; discriminate.
  - destruct arr as [|o arr]; cbn [length].
    + rewrite decide_False by lia. rewrite decide_True by done. done.
    + rewrite decide_True by lia. destruct (process_images _ _); done.
Qed.

Lemma calculateAveragePixels_run c0 decode urls order :
  urls <> [] ->
  calculateAveragePixels (Some c0) decode urls order =
    ls_promise (run_loads decode urls order
                  (mkLoadState [] 0 (canvas_resize width height c0) Pending)).
Proof. destruct urls; done. Qed.

Lemma run_loads_snoc decode urls pre i st :
  run_loads decode urls (pre ++ [i]) st = load_event decode urls (run_loads decode urls pre st) i.
Proof. apply foldl_snoc. Qed.

Lemma perm_seq_bounds (order : list nat) n :
  order ≡ₚ seq 0 n -> Forall (fun i => i < n)%nat order.
Proof.
  intros Hp. apply Forall_forall. intros i Hi.
  rewrite Hp, elem_of_seq in Hi. lia.
Qed.

(** ** The compositor's outcome *)

(** Whatever the completion order of the image loads, the promise of
    [calculateAveragePixels] is the [composite_result] of the decode
    outcomes. *)
Lemma calculateAveragePixels_composite c0 decode urls order :
  urls <> [] -> order ≡ₚ seq 0 (length urls) ->
  calculateAveragePixels (Some c0) decode urls order = composite_result (decode <$> urls).
Proof.
  intros Hne Hp. rewrite calculateAveragePixels_run by done.
  pose proof (perm_seq_bounds _ _ Hp) as Hlt.
  assert (order <> []) as Hord.
  { intros ->. apply Permutation_length in Hp. rewrite length_seq in Hp.
    destruct urls; simpl in *; congruence. }
  destruct (exists_last Hord) as (pre & i & ->).
  apply Forall_app in Hlt as [Hpre Hi]. apply Forall_cons in Hi as [Hi _].
  assert (length pre = pred (length urls)) as Hlen.
  { apply Permutation_length in Hp. rewrite length_app, length_seq in Hp. simpl in Hp. lia. }
  rewrite run_loads_snoc, run_loads_counting by (simpl; lia || done). cbn [ls_images ls_loadedCount ls_canvas ls_promise].
  rewrite Nat.add_0_l, Hlen, last_event_promise by done.
  assert (store_image (decode <$> urls) (foldl (store_image (decode <$> urls)) [] pre) i
          = rtrim_none (decode <$> urls)) as ->.
  { rewrite <-foldl_snoc. apply images_after_all. by rewrite length_fmap. }
  unfold composite_result. rewrite process_images_result by (apply dims_resize; cbv; discriminate).
  rewrite present_rtrim. destruct (decide (present _ = [])) as [H|H].
  - rewrite decide_True by (by apply rtrim_none_nil_iff). done.
  - rewrite decide_False by (by rewrite rtrim_none_nil_iff). done.
Qed.
End CompositorProofs.

(** ** The arithmetic of the accumulation *)

Lemma add_into_app s1 s2 d1 d2 :
  length s1 = length d1 -> add_into (s1 ++ s2) (d1 ++ d2) = add_into s1 d1 ++ add_into s2 d2.
Proof.
  revert d1. induction s1 as [|x s1 IH]; intros [|y d1] Hl; simpl in *; try done.
  rewrite IH by lia. done.
Qed.

(** A sum that stays below [2 ^ 32] does not wrap. *)
Lemma add_into_exact (B : Z) s d :
  length s = length d -> Forall (fun x => 0 <= x <= B) s -> Forall in_byte d ->
  B + 255 < 2 ^ 32 ->
  add_into s d = zip_with Z.add s d /\ Forall (fun x => 0 <= x <= B + 255) (add_into s d).
Proof.
  revert d. induction s as [|x s IH]; intros [|y d] Hl Hs Hd HB; simpl in *; try done.
  apply Forall_cons in Hs as [Hx Hs]. apply Forall_cons in Hd as [Hy Hd].
  destruct (IH d) as [-> Hr]; [lia|done|done|done|]. unfold in_byte in Hy.
  rewrite u32_add_assign_exact by lia. split; [done|]. constructor; [lia|done].
Qed.

Lemma add_into_fmap f r :
  add_into (f <$> r) r = (fun x => (f x + x) mod 2 ^ 32) <$> r.
Proof.
  induction r as [|x r IH]; [done|]. rewrite !fmap_cons. cbn [add_into].
  by rewrite IH.
Qed.

Lemma fmap_zero_replicate (r : list Z) : (fun _ => 0) <$> r = replicate (length r) 0.
Proof.
  induction r as [|x r IH]; [done|]. rewrite fmap_cons, IH. done.
Qed.

Lemma buffer_solid : replicate buffer_len 0 = solid pixel_count [0; 0; 0; 0].
Proof.
  change buffer_len with (pixel_count * 4)%nat.
  induction pixel_count as [|k IH]; [done|]. simpl. by rewrite IH.
Qed.

Lemma add_into_solid k a b :
  length a = length b -> add_into (solid k a) (solid k b) = solid k (add_into a b).
Proof.
  intros Hl. unfold solid. induction k as [|k IH]; simpl; [done|].
  rewrite add_into_app by done. by rewrite IH.
Qed.

(** Exact column sums of one-colour rasters are one-colour. *)
Lemma zip_with_add_solid k a b :
  length a = length b -> zip_with Z.add (solid k a) (solid k b) = solid k (zip_with Z.add a b).
Proof.
  intros Hl. unfold solid. induction k as [|k IH]; simpl; [done|].
  rewrite zip_with_app by done. by rewrite IH.
Qed.

Lemma column_sums_solid pxs a :
  length a = 4%nat -> Forall (fun px => length px = 4%nat) pxs ->
  foldl (zip_with Z.add) (solid pixel_count a) (solid pixel_count <$> pxs) =
  solid pixel_count (foldl (zip_with Z.add) a pxs).
Proof.
  intros Ha H. revert a Ha. induction H as [|px pxs Hpx _ IH]; intros a Ha; simpl; [done|].
  rewrite zip_with_add_solid by congruence. apply IH.
  rewrite length_zip_with. lia.
Qed.

(** Exact column sums of [k] copies of one raster. *)
Lemma column_sums_copies (r : list Z) k :
  column_sums (length r) (replicate k r) = (fun x => Z.of_nat k * x) <$> r.
Proof.
  unfold column_sums. induction k as [|k IH].
  - rewrite <-fmap_zero_replicate. apply list_fmap_ext. intros. simpl. lia.
  - rewrite replicate_S_end, foldl_snoc, IH. clear IH.
    induction r as [|x r IHr]; [done|]. rewrite fmap_cons. simpl. rewrite IHr. f_equal. lia.
Qed.

Lemma average_solid k a q : average (solid k a) q = solid k (average a q).
Proof.
  unfold average, solid. induction k as [|k IH]; simpl; [done|].
  rewrite fmap_app. by f_equal.
Qed.


Section Accumulation.
Context {Img C : Type} `{!Canvas2D Img C} `{!CanvasLaws Img C}.



(** No overflow up to [16843009 = (2^32 - 1) / 255] images: the
    [Uint32Array] holds the exact sums. *)
Lemma sum_rasters_exact (imgs : list Img) :
  Z.of_nat (length imgs) <= 16843009 ->
  sum_rasters (width, height) imgs =
    column_sums buffer_len (rasterize (width, height) <$> imgs).
Proof.
  intros Hn. unfold sum_rasters, column_sums. rewrite foldl_fmap.
  assert (forall (k : nat) s, length s = buffer_len ->
            Forall (fun x => 0 <= x <= 255 * Z.of_nat k) s ->
            Z.of_nat k + Z.of_nat (length imgs) <= 16843009 ->
            foldl (fun s img => add_into s (rasterize (width, height) img)) s imgs =
            foldl (fun s img => zip_with Z.add s (rasterize (width, height) img)) s imgs)
    as Hgen.
  { clear Hn. induction imgs as [|img imgs IH]; intros k s Hl Hs Hk; simpl; [done|].
    destruct (add_into_exact (255 * Z.of_nat k) s (rasterize (width, height) img))
      as [Heq Hb].
    - by rewrite length_rasterize, Hl.
    - done.
    - apply rasterize_bytes.
    - simpl in Hk. lia.
    - rewrite Heq in Hb |- *. apply (IH (S k)).
      + rewrite length_zip_with, length_rasterize, Hl. apply Nat.min_id.
      + eapply Forall_impl; [exact Hb|]. simpl. lia.
      + simpl in Hk. lia. }
  apply (Hgen 0%nat); [apply length_replicate| |lia].
  apply Forall_replicate. lia.
Qed.



(** [k] copies of one image: each sample holds [k * x] modulo [2 ^ 32],
    the wrap of the [Uint32Array]. *)
Lemma sum_rasters_copies img k :
  sum_rasters (width, height) (replicate k img) =
    (fun x => (Z.of_nat k * x) mod 2 ^ 32) <$> rasterize (width, height) img.
Proof.
  unfold sum_rasters. induction k as [|k IH].
  - rewrite fmap_zero_replicate, length_rasterize. reflexivity.
  - rewrite replicate_S_end, foldl_snoc, IH. cbv beta. rewrite add_into_fmap.
    apply list_fmap_ext. intros _ x _. rewrite Zplus_mod_idemp_l. f_equal. lia.
Qed.

(** ** Solid rasters *)




Definition solid_images (imgs : list Img) (pxs : list (list Z)) : Prop :=
  Forall2 (fun img px => rasterize (width, height) img = solid pixel_count px /\
                         length px = 4%nat) imgs pxs.

Lemma solid_images_rasters imgs pxs :
  solid_images imgs pxs ->
  rasterize (width, height) <$> imgs = solid pixel_count <$> pxs /\
  Forall (fun px => length px = 4%nat) pxs.
Proof.
  induction 1 as [|img px imgs pxs [Hr Hpx] _ [IH1 IH2]]; [done|].
  rewrite !fmap_cons, Hr, IH1. split; [done|]. by constructor.
Qed.

Lemma sum_solid_fold (imgs : list Img) pxs (a : list Z) :
  length a = 4%nat -> solid_images imgs pxs ->
  foldl (fun s img => add_into s (rasterize (width, height) img)) (solid pixel_count a) imgs
  = solid pixel_count (foldl add_into a pxs).
Proof.
  intros Ha H. revert a Ha. induction H as [|img px imgs pxs [Hr Hpx] _ IH];
    intros a Ha; simpl; [done|].
  rewrite Hr, add_into_solid by congruence. apply IH. by rewrite length_add_into.
Qed.

(** Images that are each one colour sum to one colour, the sum of the
    pixels. *)
Lemma sum_rasters_solid (imgs : list Img) (pxs : list (list Z)) :
  solid_images imgs pxs ->
  sum_rasters (width, height) imgs = solid pixel_count (foldl add_into [0; 0; 0; 0] pxs).
Proof. intros H. unfold sum_rasters. rewrite buffer_solid. by apply sum_solid_fold. Qed.
End Accumulation.

(** ** Witness *)

Import SolidCanvas.

Lemma accumulate_equiv_witness :
  canvas_dims (SolidCanvas.mkSurface (width, height) []) = (width, height) /\
  (accumulate (SolidCanvas.mkSurface (width, height) []) [None; Some (255, 0, 0, 255)]).2 =
    sum_rasters (width, height) (present [None; Some (255, 0, 0, 255)]).
Proof.
  assert (canvas_dims (SolidCanvas.mkSurface (width, height) []) = (width, height)) as Hc
    by reflexivity.
  split; [exact Hc|].
  exact (proj1 (accumulate_equiv (SolidCanvas.mkSurface (width, height) [])
                  [None; Some (255, 0, 0, 255)] Hc)).
Defined.
