(* ===== verification/CompositorSpec.v ===== *)
(** * The compositor against its specification

    [Spec] states what spec.md (sections 4.1, 7 and 8) asks of the
    compositor.  The outcome is [NoInput] for no sources, [AllFailed]
    when no source decodes, and otherwise the per-channel mean of the
    decoded rasters, rounded half up and clamped to [0, 255].  Failed
    sources are excluded from the mean.

    [refines] relates the promise of [calculateAveragePixels] to a
    [Spec.outcome].  The theorems below show the following.
    - The code refines the specification when the failed sources come
      after the loaded ones and there are at most 16843009 images.
    - It does not when a failed source precedes a loaded one: that
      source is averaged in as a transparent black image.
    - The outcome does not depend on the order in which the loads
      complete, and once every load has fired the promise is settled,
      never with the [ImageDataError].
    - The scenarios of spec.md section 8 hold.
    - The [Uint32Array] sums wrap beyond 16843009 images. *)

From stdpp Require Import strings.
From S2P Require Import Prelude JsRuntime Canvas Compositor.

Open Scope Z_scope.
Set Default Proof Using "All".

Module Spec.
Inductive outcome :=
| NoInput
| AllFailed
| SurfaceUnavailable
| Composite (raster : list Z).

(** The mean of [k] samples of sum [s], half rounded up, clamped. *)
Definition mean_sample (k s : Z) : Z := Z.max 0 (Z.min 255 ((2 * s + k) / (2 * k))).

(** [composite n decoded]: [decoded] has one entry per source, the
    decoded raster of [n] samples or [None]. *)
Definition composite (n : nat) (decoded : list (option (list Z))) : outcome :=
  match decoded with
  | [] => NoInput
  | _ =>
      match present decoded with
      | [] => AllFailed
      | rs => Composite (mean_sample (Z.of_nat (length rs)) <$> column_sums n rs)
      end
  end.
End Spec.

Lemma average_mean sums k : 0 < k -> average sums k = Spec.mean_sample k <$> sums.
Proof.
  intros Hk. apply list_fmap_ext. intros _ s _.
  rewrite math_round_div_pos by done. reflexivity.
Qed.

Lemma average_one r : Forall in_byte r -> average r 1 = r.
Proof.
  intros Hr. rewrite <-(list_fmap_id r) at 2. apply list_fmap_ext.
  intros i x Hx. apply (Forall_lookup_1 _ _ _ _ Hr) in Hx. unfold in_byte in Hx.
  rewrite math_round_div_pos by lia. cbn [to_uint8_clamped id].
  rewrite round_div_one. lia.
Qed.

Lemma add_into_zeros r : Forall in_byte r -> add_into (replicate (length r) 0) r = r.
Proof.
  induction 1 as [|x r Hx Hr IH]; [done|]. simpl. rewrite IH.
  rewrite u32_add_assign_exact; unfold in_byte in Hx; [done|lia].
Qed.

Section Refinement.
Context {Img C : Type} `{!Canvas2D Img C} `{!CanvasLaws Img C}.

(** The promise of the code against an outcome of the specification. *)
Definition refines (p : promise string CompositeError) (o : Spec.outcome) : Prop :=
  match p, o with
  | Rejected NoImagesError, Spec.NoInput => True
  | Rejected AllImagesFailed, Spec.AllFailed => True
  | Rejected CanvasContextError, Spec.SurfaceUnavailable => True
  | Fulfilled url, Spec.Composite r => url = encodePNG r
  | _, _ => False
  end.

(** The decoded rasters of the sources, as the specification sees them. *)
Definition decoded_rasters (decode : string -> option Img) (urls : list string)
    : list (option (list Z)) :=
  (fun o => rasterize (width, height) <$> o) <$> (decode <$> urls).

Lemma spec_composite_nonempty n decoded :
  decoded <> [] ->
  Spec.composite n decoded =
    match present decoded with
    | [] => Spec.AllFailed
    | rs => Spec.Composite (Spec.mean_sample (Z.of_nat (length rs)) <$> column_sums n rs)
    end.
Proof. by destruct decoded. Qed.




Lemma composite_nonempty decode urls :
  urls <> [] -> present (decode <$> urls) <> [] ->
  forall c0 order, order ≡ₚ seq 0 (length urls) ->
  calculateAveragePixels (Some c0) decode urls order =
    Fulfilled (encodePNG (average (sum_rasters (width, height) (present (decode <$> urls)))
                            (Z.of_nat (length (rtrim_none (decode <$> urls)))))).
Proof.
  intros Hne Hp c0 order Hord. rewrite calculateAveragePixels_composite by done.
  unfold composite_result. by rewrite decide_False.
Qed.

(** The refinement of the compositor, shared by the component-level
    theorems of [System]. *)
Lemma compositor_refines c0 decode urls order :
  order ≡ₚ seq 0 (length urls) ->
  holes_trailing (decode <$> urls) ->
  Z.of_nat (length (present (decode <$> urls))) <= 16843009 ->
  refines (calculateAveragePixels (Some c0) decode urls order)
          (Spec.composite buffer_len (decoded_rasters decode urls)).
Proof.
  intros Hord Htr Hbound.
  destruct (decide (urls = [])) as [->|Hne]; [done|].
  rewrite spec_composite_nonempty by (unfold decoded_rasters; by destruct urls).
  unfold decoded_rasters. rewrite present_fmap.
  destruct (decide (present (decode <$> urls) = [])) as [H|H].
  - rewrite calculateAveragePixels_composite by done. unfold composite_result.
    rewrite decide_True by done. by rewrite H.
  - rewrite composite_nonempty by done.
    pose proof (rtrim_holes_trailing _ Htr) as Hlen.
    destruct (present (decode <$> urls)) as [|img imgs] eqn:Ep; [done|].
    rewrite fmap_cons. cbn iota beta. rewrite <-fmap_cons, <-Ep in *.
    cbn [refines]. f_equal. rewrite length_fmap, Hlen, sum_rasters_exact by done.
    apply average_mean. rewrite Ep. simpl. lia.
Qed.

(** C1.  Refinement: when no failed source precedes a loaded one, and
    at most 16843009 images loaded (so no [Uint32Array] sum wraps),
    [calculateAveragePixels] implements the specification, for every
    completion order of the loads.  No input gives [NoImagesError],
    no decoded image gives [AllImagesFailed], and otherwise the data
    URL encodes the per-channel mean of the decoded rasters. *)
Theorem calculateAveragePixels_refines c0 decode urls order :
  order ≡ₚ seq 0 (length urls) ->
  holes_trailing (decode <$> urls) ->
  Z.of_nat (length (present (decode <$> urls))) <= 16843009 ->
  refines (calculateAveragePixels (Some c0) decode urls order)
          (Spec.composite buffer_len (decoded_rasters decode urls)).
Proof. apply compositor_refines. Qed.

(** C4.  Determinism: the outcome does not depend on the order in which
    the image loads complete (the callbacks' order on the JS thread). *)
Theorem calculateAveragePixels_order_independent c0 decode urls o1 o2 :
  o1 ≡ₚ seq 0 (length urls) -> o2 ≡ₚ seq 0 (length urls) ->
  calculateAveragePixels (Some c0) decode urls o1 =
  calculateAveragePixels (Some c0) decode urls o2.
Proof.
  intros H1 H2. destruct (decide (urls = [])) as [->|Hne]; [done|].
  by rewrite !calculateAveragePixels_composite.
Qed.

(** C11.  Termination of the join: once every load has fired its
    callback, in any order, the promise is settled, and never with the
    [ImageDataError] of [new ImageData] (the averaged buffer always has
    [4 * width * height] samples): with a context it is rejected with
    [NoImagesError] or [AllImagesFailed] or fulfilled, without one it is
    rejected with [CanvasContextError]. *)
Theorem calculateAveragePixels_settles ctx decode urls order :
  order ≡ₚ seq 0 (length urls) ->
  calculateAveragePixels ctx decode urls order <> Pending /\
  calculateAveragePixels ctx decode urls order <> Rejected ImageDataError.
Proof.
  intros Hord. destruct ctx as [c0|]; [|split; discriminate].
  destruct (decide (urls = [])) as [->|Hne]; [split; discriminate|].
  rewrite calculateAveragePixels_composite by done.
  unfold composite_result. case_decide; split; discriminate.
Qed.

Lemma solid_buffer_len (px : list Z) : length px = 4%nat -> length (solid pixel_count px) = buffer_len.
Proof. intros Hpx. rewrite length_solid, Hpx. reflexivity. Qed.

(** C2.  A failed source before a loaded one is not excluded from the
    mean, contrary to spec.md section 4.1 step 6: [images[1] = img]
    leaves a hole at index 0, [images.length] is 2, and the divisor
    counts the hole.  A source that fails and is followed by a flag of
    colour [px] gives the colour [px / 2], where the specification
    gives [px] itself. *)
Theorem failed_source_counts_in_mean c0 decode u1 u2 order img px :
  decode u1 = None -> decode u2 = Some img ->
  rasterize (width, height) img = solid pixel_count px ->
  length px = 4%nat -> Forall in_byte px ->
  order ≡ₚ seq 0 2 ->
  calculateAveragePixels (Some c0) decode [u1; u2] order
    = Fulfilled (encodePNG (solid pixel_count (average px 2))) /\
  Spec.composite buffer_len (decoded_rasters decode [u1; u2])
    = Spec.Composite (solid pixel_count px).
Proof.
  intros H1 H2 Hr Hpx Hb Hord.
  assert (Forall in_byte (solid pixel_count px)) as Hs by (by apply Forall_solid).
  assert (column_sums buffer_len [solid pixel_count px] = solid pixel_count px) as Hcol.
  { unfold column_sums. cbn [foldl]. rewrite <-(solid_buffer_len px Hpx).
    apply zip_with_add_zeros. }
  split.
  - rewrite composite_nonempty by (cbn [fmap list_fmap]; rewrite ?H1, ?H2; done).
    cbn [fmap list_fmap]. rewrite H1, H2. cbn [rtrim_none length Z.of_nat].
    rewrite present_cons_None, present_cons_Some.
    change (present (@nil (option Img))) with (@nil Img).
    unfold sum_rasters. cbn [foldl]. change (Z.of_nat 2) with 2.
    rewrite Hr, <-(solid_buffer_len px Hpx), add_into_zeros by done.
    by rewrite average_solid.
  - unfold decoded_rasters. cbn [fmap list_fmap]. rewrite H1, H2.
    rewrite spec_composite_nonempty by done. cbn [fmap option_fmap option_map].
    rewrite present_cons_None, present_cons_Some. cbn [present omap list_omap length Z.of_nat].
    rewrite Hr, Hcol. f_equal. rewrite fmap_solid. f_equal.
    rewrite <-(list_fmap_id px) at 2. apply list_fmap_ext. intros i x Hx.
    apply (Forall_lookup_1 _ _ _ _ Hb) in Hx. unfold in_byte, Spec.mean_sample in *.
    cbn [id]. change (Z.of_nat 1) with 1. rewrite round_div_one. lia.
Qed.

Lemma decode_all_Some (decode : string -> option Img) urls (imgs : list Img) :
  decode <$> urls = Some <$> imgs -> length imgs = length urls.
Proof. intros H. apply (f_equal length) in H. by rewrite !length_fmap in H. Qed.

(** C18.  Flags of one colour each (spec.md section 8, first property):
    when every source decodes, source [i] is the solid colour
    [pxs !! i], and at most 16843009 sources are given, the composite
    is the solid colour whose every channel is the half-up rounded mean
    ([Spec.mean_sample]) of the exact sum of the sources' channel
    values. *)
Theorem calculateAveragePixels_solid c0 decode urls order imgs pxs :
  urls <> [] -> decode <$> urls = Some <$> imgs -> solid_images imgs pxs ->
  order ≡ₚ seq 0 (length urls) -> Z.of_nat (length urls) <= 16843009 ->
  calculateAveragePixels (Some c0) decode urls order =
    Fulfilled (encodePNG (solid pixel_count
      (Spec.mean_sample (Z.of_nat (length urls)) <$> foldl (zip_with Z.add) [0; 0; 0; 0] pxs))).
Proof.
  intros Hne Hdec Hsolid Hord Hb.
  assert (present (decode <$> urls) <> []) as Hp.
  { rewrite Hdec, present_Somes. intros ->. destruct urls; simpl in *; [done|].
    discriminate. }
  pose proof (decode_all_Some _ _ _ Hdec) as Hlen.
  destruct (solid_images_rasters _ _ Hsolid) as [Hr Hl4].
  rewrite composite_nonempty by done. rewrite Hdec, present_Somes, length_rtrim_Somes.
  rewrite Hlen in *. rewrite sum_rasters_exact by lia.
  rewrite average_mean by (destruct urls; [done|simpl; lia]).
  unfold column_sums. rewrite Hr, buffer_solid, column_sums_solid by done.
  by rewrite fmap_solid.
Qed.

(** C19.  A single flag comes back unchanged (spec.md section 8, last
    scenario): its raster is summed into zeros and divided by 1. *)
Theorem calculateAveragePixels_single c0 decode url img :
  decode url = Some img ->
  calculateAveragePixels (Some c0) decode [url] [0%nat] =
    Fulfilled (encodePNG (rasterize (width, height) img)).
Proof.
  intros Hd. rewrite composite_nonempty by (cbn [fmap list_fmap]; rewrite ?Hd; done).
  cbn [fmap list_fmap]. rewrite Hd. cbn [rtrim_none length Z.of_nat].
  rewrite present_cons_Some. change (present (@nil (option Img))) with (@nil Img).
  unfold sum_rasters. cbn [foldl]. change (Z.of_nat 1) with 1.
  replace buffer_len with (length (rasterize (width, height) img)) by apply length_rasterize.
  rewrite add_into_zeros, average_one by apply rasterize_bytes. done.
Qed.

(** The composite of [n] copies of one image, shared by the theorems
    on copies. *)
Lemma copies_result c0 decode urls order img :
  urls <> [] -> Forall (fun u => decode u = Some img) urls ->
  order ≡ₚ seq 0 (length urls) ->
  calculateAveragePixels (Some c0) decode urls order =
    Fulfilled (encodePNG (average
      ((fun x => (Z.of_nat (length urls) * x) mod 2 ^ 32) <$> rasterize (width, height) img)
      (Z.of_nat (length urls)))).
Proof.
  intros Hne Hall Hord.
  assert (decode <$> urls = Some <$> replicate (length urls) img) as Hdec.
  { clear Hne Hord. induction Hall as [|u urls Hu _ IH]; [done|].
    by rewrite !fmap_cons, Hu, IH. }
  assert (present (decode <$> urls) <> []) as Hp.
  { rewrite Hdec, present_Somes. destruct urls; simpl; done. }
  rewrite composite_nonempty by done.
  rewrite Hdec, present_Somes, length_rtrim_Somes, length_replicate.
  by rewrite sum_rasters_copies.
Qed.

(** C21.  [n] sources that all decode to the same image: each sample [x]
    of the composite is [Math.round(((n * x) mod 2^32) / n)], the wrap of
    the [Uint32Array] sums made explicit. *)
Theorem calculateAveragePixels_copies c0 decode urls order img :
  urls <> [] -> Forall (fun u => decode u = Some img) urls ->
  order ≡ₚ seq 0 (length urls) ->
  calculateAveragePixels (Some c0) decode urls order =
    Fulfilled (encodePNG (average
      ((fun x => (Z.of_nat (length urls) * x) mod 2 ^ 32) <$> rasterize (width, height) img)
      (Z.of_nat (length urls)))).
Proof. apply copies_result. Qed.

(** C20.  When no source decodes, the promise is rejected with
    [AllImagesFailed], whatever the completion order. *)
Theorem calculateAveragePixels_all_failed c0 decode urls order :
  urls <> [] -> Forall (fun u => decode u = None) urls ->
  order ≡ₚ seq 0 (length urls) ->
  calculateAveragePixels (Some c0) decode urls order = Rejected AllImagesFailed.
Proof.
  intros Hne Hall Hord. rewrite calculateAveragePixels_composite by done.
  unfold composite_result. rewrite decide_True; [done|].
  clear Hne Hord. induction Hall as [|u urls Hu _ IH]; [done|].
  by rewrite fmap_cons, Hu, present_cons_None.
Qed.

(** C5.  The join: until the last load has settled, the promise stays
    pending and [loadedCount] counts the settled loads.  No composite
    is ever made from a part of the sources. *)
Theorem calculateAveragePixels_pending_until_last decode urls c pre post :
  pre ++ post ≡ₚ seq 0 (length urls) -> post <> [] ->
  let st := run_loads decode urls pre (mkLoadState [] 0 c Pending) in
  ls_promise st = Pending /\ ls_loadedCount st = length pre /\ ls_canvas st = c.
Proof.
  intros Hp Hpost st. subst st.
  pose proof (perm_seq_bounds _ _ Hp) as Hlt. apply Forall_app in Hlt as [Hpre _].
  apply Permutation_length in Hp. rewrite length_app, length_seq in Hp.
  destruct post; [done|]. simpl in Hp.
  rewrite run_loads_counting by (simpl; lia || done). done.
Qed.

(** The specification's composite of [n] copies of one raster. *)
Lemma spec_composite_copies (decode : string -> option Img) urls img :
  urls <> [] -> Forall (fun u => decode u = Some img) urls ->
  Spec.composite buffer_len (decoded_rasters decode urls) =
    Spec.Composite (Spec.mean_sample (Z.of_nat (length urls)) <$>
      column_sums buffer_len (replicate (length urls) (rasterize (width, height) img))).
Proof.
  intros Hne Hall.
  assert (decode <$> urls = Some <$> replicate (length urls) img) as Hdec.
  { clear Hne. induction Hall as [|u urls' Hu _ IH]; [done|].
    by rewrite !fmap_cons, Hu, IH. }
  unfold decoded_rasters. rewrite spec_composite_nonempty by (rewrite Hdec; by destruct urls).
  rewrite present_fmap, Hdec, present_Somes, fmap_replicate.
  destruct urls as [|u urls']; [done|]. cbn [length replicate].
  by rewrite length_replicate.
Qed.

(** C22.  Overflow: 16843010 white flags compose to a black,
    transparent one, where the specification gives white.  Each
    [Uint32Array] sum wraps to [16843010 * 255 mod 2^32 = 254], and
    [Math.round(254 / 16843010) = 0]. *)
Theorem white_flags_overflow c0 decode urls order img :
  Z.of_nat (length urls) = 16843010 -> Forall (fun u => decode u = Some img) urls ->
  rasterize (width, height) img = solid pixel_count [255; 255; 255; 255] ->
  order ≡ₚ seq 0 (length urls) ->
  calculateAveragePixels (Some c0) decode urls order =
    Fulfilled (encodePNG (solid pixel_count [0; 0; 0; 0])) /\
  Spec.composite buffer_len (decoded_rasters decode urls) =
    Spec.Composite (solid pixel_count [255; 255; 255; 255]).
Proof.
  intros Hn Hall Hr Hord.
  assert (urls <> []) as Hne by (intros ->; discriminate Hn).
  split.
  - rewrite (copies_result c0 decode urls order img) by done.
    rewrite Hn, Hr, fmap_solid, average_solid. reflexivity.
  - rewrite spec_composite_copies with (img := img) by done. rewrite Hr.
    change buffer_len with (pixel_count * 4)%nat.
    replace (pixel_count * 4)%nat with (length (solid pixel_count [255; 255; 255; 255]))
      by (rewrite length_solid; done).
    rewrite column_sums_copies, Hn, !fmap_solid. reflexivity.
Qed.

End Refinement.

(** C33.  The errors raised before any load: a [null] 2D context
    rejects with [CanvasContextError], even when there is no URL (the
    context is checked first, line 19, before the empty check, line
    34); with a context, no URL rejects with [NoImagesError], and no
    image is loaded. *)
Theorem calculateAveragePixels_early_errors {Img C : Type} `{!Canvas2D Img C}
    (decode : string -> option Img) urls order (c0 : C) :
  calculateAveragePixels None decode urls order = Rejected CanvasContextError /\
  calculateAveragePixels (Some c0) decode [] order = Rejected NoImagesError.
Proof. split; reflexivity. Qed.

(** ** Concrete flags on the one-colour canvas *)

Module Examples.
Import SolidCanvas.

Definition red : rgba := (255, 0, 0, 255).
Definition blue : rgba := (0, 0, 255, 255).
Definition green : rgba := (0, 255, 0, 255).

(** The flag files: three that decode, the others fail to load. *)
Definition flag_decode (url : string) : option rgba :=
  if String.eqb url "red.svg" then Some red
  else if String.eqb url "blue.svg" then Some blue
  else if String.eqb url "green.svg" then Some green
  else None.

Definition blank : surface := mkSurface (0, 0) [].

Lemma rasterize_opaque (c : rgba) :
  byte_clamp c.2 <> 0 ->
  rasterize (width, height) c = solid pixel_count (pixel_bytes c).
Proof.
  intros Hc. change (rasterize (width, height) c) with (raster (width, height) c).
  unfold raster. rewrite decide_False by done. reflexivity.
Qed.

Lemma red_solid : rasterize (width, height) red = solid pixel_count [255; 0; 0; 255].
Proof. rewrite rasterize_opaque by (vm_compute; discriminate). reflexivity. Qed.

Lemma blue_solid : rasterize (width, height) blue = solid pixel_count [0; 0; 255; 255].
Proof. rewrite rasterize_opaque by (vm_compute; discriminate). reflexivity. Qed.

Definition white : rgba := (255, 255, 255, 255).

Lemma white_solid : rasterize (width, height) white = solid pixel_count [255; 255; 255; 255].
Proof. rewrite rasterize_opaque by (vm_compute; discriminate). reflexivity. Qed.
End Examples.

Import Examples SolidCanvas.

Lemma calculateAveragePixels_refines_witness :
  [1%nat; 0%nat] ≡ₚ seq 0 (length ["red.svg"; "blue.svg"]) /\
  holes_trailing (flag_decode <$> ["red.svg"; "blue.svg"]) /\
  Z.of_nat (length (present (flag_decode <$> ["red.svg"; "blue.svg"]))) <= 16843009 /\
  refines (calculateAveragePixels (Some blank) flag_decode ["red.svg"; "blue.svg"] [1%nat; 0%nat])
    (Spec.composite buffer_len (decoded_rasters flag_decode ["red.svg"; "blue.svg"])).
Proof.
  assert ([1%nat; 0%nat] ≡ₚ seq 0 (length ["red.svg"; "blue.svg"])) as Hp
    by (simpl; apply perm_swap).
  split; [exact Hp|]. split; [vm_compute; exact I|]. split; [vm_compute; discriminate|].
  apply calculateAveragePixels_refines; [exact Hp|vm_compute; exact I|vm_compute; discriminate].
Defined.

Lemma calculateAveragePixels_order_independent_witness :
  [0%nat; 1%nat] ≡ₚ seq 0 (length ["red.svg"; "missing.svg"]) /\
  [1%nat; 0%nat] ≡ₚ seq 0 (length ["red.svg"; "missing.svg"]) /\
  calculateAveragePixels (Some blank) flag_decode ["red.svg"; "missing.svg"] [0%nat; 1%nat] =
  calculateAveragePixels (Some blank) flag_decode ["red.svg"; "missing.svg"] [1%nat; 0%nat].
Proof.
  assert ([0%nat; 1%nat] ≡ₚ seq 0 (length ["red.svg"; "missing.svg"])) as H1 by reflexivity.
  assert ([1%nat; 0%nat] ≡ₚ seq 0 (length ["red.svg"; "missing.svg"])) as H2
    by (simpl; apply perm_swap).
  split; [exact H1|]. split; [exact H2|].
  apply calculateAveragePixels_order_independent; [exact H1|exact H2].
Defined.

(** The missing first flag turns red [(255, 0, 0, 255)] into
    [(128, 0, 0, 128)]; the specification keeps it red. *)
Lemma failed_source_counts_in_mean_witness :
  flag_decode "missing.svg" = None /\ flag_decode "red.svg" = Some red /\
  calculateAveragePixels (Some blank) flag_decode ["missing.svg"; "red.svg"] [1%nat; 0%nat]
    = Fulfilled (encodePNG (solid pixel_count [128; 0; 0; 128])) /\
  Spec.composite buffer_len (decoded_rasters flag_decode ["missing.svg"; "red.svg"])
    = Spec.Composite (solid pixel_count [255; 0; 0; 255]).
Proof.
  split; [reflexivity|]. split; [reflexivity|].
  destruct (failed_source_counts_in_mean blank flag_decode "missing.svg" "red.svg"
              [1%nat; 0%nat] red [255; 0; 0; 255]) as [Hcode Hspec].
  - reflexivity.
  - reflexivity.
  - apply red_solid.
  - reflexivity.
  - repeat constructor; unfold in_byte; lia.
  - simpl. apply perm_swap.
  - split; [rewrite Hcode; reflexivity | exact Hspec].
Defined.

(** spec.md section 8: red and blue give [(128, 0, 128, 255)]. *)
Lemma calculateAveragePixels_solid_witness :
  ["red.svg"; "blue.svg"] <> [] /\
  flag_decode <$> ["red.svg"; "blue.svg"] = Some <$> [red; blue] /\
  solid_images [red; blue] [[255; 0; 0; 255]; [0; 0; 255; 255]] /\
  Z.of_nat (length ["red.svg"; "blue.svg"]) <= 16843009 /\
  calculateAveragePixels (Some blank) flag_decode ["red.svg"; "blue.svg"] [1%nat; 0%nat]
    = Fulfilled (encodePNG (solid pixel_count [128; 0; 128; 255])).
Proof.
  assert (solid_images [red; blue] [[255; 0; 0; 255]; [0; 0; 255; 255]]) as Hs.
  { repeat constructor; first [apply red_solid | apply blue_solid]. }
  split; [discriminate|]. split; [reflexivity|]. split; [exact Hs|]. split; [simpl; lia|].
  rewrite (calculateAveragePixels_solid blank flag_decode ["red.svg"; "blue.svg"]
             [1%nat; 0%nat] [red; blue] [[255; 0; 0; 255]; [0; 0; 255; 255]]).
  - reflexivity.
  - discriminate.
  - reflexivity.
  - exact Hs.
  - simpl. apply perm_swap.
  - simpl. lia.
Defined.

Lemma calculateAveragePixels_single_witness :
  flag_decode "green.svg" = Some green /\
  calculateAveragePixels (Some blank) flag_decode ["green.svg"] [0%nat]
    = Fulfilled (encodePNG (rasterize (width, height) green)).
Proof.
  split; [reflexivity|]. apply calculateAveragePixels_single. reflexivity.
Defined.

Lemma calculateAveragePixels_copies_witness :
  ["red.svg"; "red.svg"] <> [] /\
  Forall (fun u => flag_decode u = Some red) ["red.svg"; "red.svg"] /\
  [0%nat; 1%nat] ≡ₚ seq 0 (length ["red.svg"; "red.svg"]) /\
  calculateAveragePixels (Some blank) flag_decode ["red.svg"; "red.svg"] [0%nat; 1%nat] =
    Fulfilled (encodePNG (average
      ((fun x => (Z.of_nat 2 * x) mod 2 ^ 32) <$> rasterize (width, height) red) (Z.of_nat 2))).
Proof.
  assert (Forall (fun u => flag_decode u = Some red) ["red.svg"; "red.svg"]) as Hall
    by (repeat constructor).
  split; [discriminate|]. split; [exact Hall|]. split; [reflexivity|].
  apply calculateAveragePixels_copies; [discriminate|exact Hall|reflexivity].
Defined.

Lemma calculateAveragePixels_all_failed_witness :
  ["a.svg"; "b.svg"] <> [] /\
  Forall (fun u => flag_decode u = None) ["a.svg"; "b.svg"] /\
  calculateAveragePixels (Some blank) flag_decode ["a.svg"; "b.svg"] [1%nat; 0%nat]
    = Rejected AllImagesFailed.
Proof.
  assert (Forall (fun u => flag_decode u = None) ["a.svg"; "b.svg"]) as Hall
    by (repeat constructor).
  split; [discriminate|]. split; [exact Hall|].
  apply calculateAveragePixels_all_failed; [discriminate|exact Hall|simpl; apply perm_swap].
Defined.

Lemma calculateAveragePixels_pending_until_last_witness :
  [1%nat] ++ [0%nat] ≡ₚ seq 0 (length ["red.svg"; "blue.svg"]) /\
  ls_promise (run_loads flag_decode ["red.svg"; "blue.svg"] [1%nat]
                (mkLoadState [] 0 blank Pending)) = Pending.
Proof.
  assert ([1%nat] ++ [0%nat] ≡ₚ seq 0 (length ["red.svg"; "blue.svg"])) as Hp
    by (simpl; apply perm_swap).
  split; [exact Hp|].
  apply (calculateAveragePixels_pending_until_last flag_decode ["red.svg"; "blue.svg"]
           blank [1%nat] [0%nat] Hp).
  discriminate.
Defined.


Lemma calculateAveragePixels_settles_witness :
  [1%nat; 0%nat] ≡ₚ seq 0 (length ["missing.svg"; "red.svg"]) /\
  calculateAveragePixels (Some blank) flag_decode ["missing.svg"; "red.svg"] [1%nat; 0%nat]
    <> Pending.
Proof.
  assert ([1%nat; 0%nat] ≡ₚ seq 0 (length ["missing.svg"; "red.svg"])) as Hp
    by (simpl; apply perm_swap).
  split; [exact Hp|].
  exact (proj1 (calculateAveragePixels_settles (Some blank) flag_decode
                  ["missing.svg"; "red.svg"] [1%nat; 0%nat] Hp)).
Defined.

(** 16843010 copies of a white flag. *)
Lemma white_flags_overflow_witness :
  let urls := replicate (Z.to_nat 16843010) "white.svg" in
  Z.of_nat (length urls) = 16843010 /\
  calculateAveragePixels (Some blank) (fun _ => Some white) urls (seq 0 (length urls)) =
    Fulfilled (encodePNG (solid pixel_count [0; 0; 0; 0])).
Proof.
  intros urls.
  assert (Z.of_nat (length urls) = 16843010) as Hn
    by (unfold urls; rewrite length_replicate; apply Z2Nat.id; lia).
  split; [exact Hn|].
  apply (proj1 (white_flags_overflow blank (fun _ => Some white) urls (seq 0 (length urls))
                  white Hn (Forall_replicate _ _ _ eq_refl) white_solid (reflexivity _))).
Defined.
