(* ===== verification/CombinedFlag.v ===== *)
(** * The [CombinedFlag] component

    Source: src/src/components/CombinedFlag.tsx, lines 7-11 and 153-243.

    [CFState] is the component's state: lines 8-10, [combinedFlagUrl],
    [loading] and [error].  An [Event] is one of two things.
    - [Select sel]: the [selectedCountries] prop changes to a new array,
      and the effect of lines 153-177 runs.
    - [Settle k]: the promise of request [k], started by that effect,
      settles, and its [.then] or [.catch] handler runs.
    [Sys] adds to the state what React and the JS runtime keep: the
    current prop and the requests still in flight, a map from a
    request number to the selection it was started for.  [run] folds the step over an event
    list, so an event list is one interleaving of selections and
    settlements.  [render] is the view of lines 179-242.

    The outcome of a request is [compose sel], a section variable.  In
    the program it is [calculateAveragePixels] on the flag URLs of [sel]
    (see [Compositor]); a request whose promise never settles has
    outcome [Pending] and its [Settle] does nothing. *)

From stdpp Require Import strings gmap.
From S2P Require Import Prelude JsRuntime Compositor.

Local Open Scope nat_scope.

(** Lines 8-10. *)
Record CFState := mkCFState {
  combinedFlagUrl : string;
  loading : bool;
  error : string;
}.

Definition initial_state : CFState := mkCFState "" false "".

(** The message set by the [.catch] handler, line 174. *)
Definition failure_message : string := "Failed to generate combined flag".

(** Lines 154-160: the effect's synchronous part.  The boolean says
    whether it starts a request.  An empty selection only clears the URL
    (line 155): [loading] and [error] keep their values. *)
Definition effect (sel : list string) (st : CFState) : CFState * bool :=
  match sel with
  | [] => (mkCFState "" (loading st) (error st), false)
  | _ => (mkCFState (combinedFlagUrl st) true "", true)
  end.

(** Lines 168-171, the [.then] handler. *)
Definition on_then (url : string) (st : CFState) : CFState :=
  mkCFState url false (error st).

(** Lines 172-176, the [.catch] handler. *)
Definition on_catch (st : CFState) : CFState :=
  mkCFState (combinedFlagUrl st) false failure_message.

(** The handler that runs when a promise settles; a pending one has not. *)
Definition settle_handler (p : promise string CompositeError) (st : CFState) : CFState :=
  match p with
  | Pending => st
  | Fulfilled url => on_then url st
  | Rejected _ => on_catch st
  end.

Inductive Event :=
| Select (sel : list string)
| Settle (k : nat).

Record Sys := mkSys {
  sys_sel : list string;
  sys_state : CFState;
  sys_pending : gmap nat (list string);
  sys_next : nat;
}.

Definition initial_sys : Sys := mkSys [] initial_state ∅ 0.

(** The view of lines 179-242: which branch of the render returns. *)
Inductive View :=
| NoSelectionView                 (** lines 180-191 *)
| LoadingView (n : nat)           (** lines 194-206 *)
| ErrorView (e : string)          (** lines 209-221 *)
| FlagView (url : string) (n : nat)  (** lines 224-232, 240 *)
| NoFlagView (n : nat).           (** lines 233-240 *)

Definition render (sel : list string) (st : CFState) : View :=
  if decide (sel = []) then NoSelectionView
  else if loading st then LoadingView (length sel)
  else if decide (error st <> "") then ErrorView (error st)
  else if decide (combinedFlagUrl st <> "") then FlagView (combinedFlagUrl st) (length sel)
  else NoFlagView (length sel).

Section Component.
Variable compose : list string -> promise string CompositeError.

(** One event.  A [Settle] of a request that is not in flight, or whose
    promise is still pending, changes nothing. *)
Definition sys_step (s : Sys) (e : Event) : Sys :=
  match e with
  | Select sel =>
      let '(st, launch) := effect sel (sys_state s) in
      if launch then
        mkSys sel st (<[sys_next s := sel]> (sys_pending s)) (S (sys_next s))
      else mkSys sel st (sys_pending s) (sys_next s)
  | Settle k =>
      match sys_pending s !! k with
      | Some sel =>
          match compose sel with
          | Pending => s
          | p => mkSys (sys_sel s) (settle_handler p (sys_state s))
                   (delete k (sys_pending s)) (sys_next s)
          end
      | None => s
      end
  end.

Definition run (s : Sys) (evs : list Event) : Sys := foldl sys_step s evs.

Definition view (s : Sys) : View := render (sys_sel s) (sys_state s).
End Component.

(** ** Stale requests *)

(** C7.  A stale composite is shown for a newer selection.  The effect
    has no cleanup and the handlers do not check which request they
    belong to (spec.md section 5 asks that only the latest request's
    outcome be delivered).  When the request for [A] settles after the
    one for [B], the component shows [A]'s flag while [B] is selected. *)
Theorem stale_composite_shown compose A B uA uB :
  A <> [] -> B <> [] -> compose A = Fulfilled uA -> compose B = Fulfilled uB ->
  uA <> "" ->
  view (run compose initial_sys [Select A; Select B; Settle 1; Settle 0]) =
    FlagView uA (length B).
Proof.
  intros HA HB HcA HcB Hu.
  destruct A as [|a A]; [done|]. destruct B as [|b B]; [done|].
  unfold run. cbn [foldl sys_step effect sys_state sys_pending sys_next initial_sys].
  rewrite lookup_insert_eq, HcB. cbn [sys_pending sys_state sys_sel sys_next settle_handler].
  rewrite lookup_delete_ne, lookup_insert_ne, lookup_insert_eq, HcA by lia.
  unfold view, render. simpl. by rewrite decide_True.
Qed.

(** C8.  The failure of a stale request hides the newer composite: [A]
    fails after [B] succeeded, and the component shows the error while
    [B] is selected and its composite was delivered. *)
Theorem stale_error_hides_composite compose A B e uB :
  A <> [] -> B <> [] -> compose A = Rejected e -> compose B = Fulfilled uB ->
  view (run compose initial_sys [Select A; Select B; Settle 1; Settle 0]) =
    ErrorView failure_message.
Proof.
  intros HA HB HcA HcB.
  destruct A as [|a A]; [done|]. destruct B as [|b B]; [done|].
  unfold run. cbn [foldl sys_step effect sys_state sys_pending sys_next initial_sys].
  rewrite lookup_insert_eq, HcB. cbn [sys_pending sys_state sys_sel sys_next settle_handler].
  rewrite lookup_delete_ne, lookup_insert_ne, lookup_insert_eq, HcA by lia.
  unfold view, render. simpl. done.
Qed.

(** ** Invariants *)

Section Invariants.
Variable compose : list string -> promise string CompositeError.

(** Request numbers in flight are below the next one, so a new request
  never reuses one. *)
Definition fresh_ids (s : Sys) : Prop :=
forall k sel, sys_pending s !! k = Some sel -> k < sys_next s.

(** [loading] is only set while a request is in flight. *)
Definition loading_inv (s : Sys) : Prop :=
loading (sys_state s) = true -> sys_pending s <> ∅.

Lemma settle_handler_loading p st : p <> Pending -> loading (settle_handler p st) = false.
Proof. destruct p; done. Qed.

(** A [Settle] either changes nothing or runs the handler of a request in
  flight and removes it. *)
Lemma sys_step_settle s k :
sys_step compose s (Settle k) = s \/
exists sel, sys_pending s !! k = Some sel /\ compose sel <> Pending /\
  sys_step compose s (Settle k) =
    mkSys (sys_sel s) (settle_handler (compose sel) (sys_state s))
      (delete k (sys_pending s)) (sys_next s).
Proof.
simpl. destruct (sys_pending s !! k) as [sel|] eqn:E; [|by left].
destruct (compose sel) eqn:Ec; [by left| |]; right; exists sel; by rewrite Ec.
Qed.

Lemma sys_step_select s sel :
sys_step compose s (Select sel) =
  match sel with
  | [] => mkSys [] (mkCFState "" (loading (sys_state s)) (error (sys_state s)))
            (sys_pending s) (sys_next s)
  | _ => mkSys sel (mkCFState (combinedFlagUrl (sys_state s)) true "")
           (<[sys_next s := sel]> (sys_pending s)) (S (sys_next s))
  end.
Proof. by destruct sel. Qed.

Lemma fresh_ids_step s e : fresh_ids s -> fresh_ids (sys_step compose s e).
Proof.
intros H. destruct e as [sel|k].
- rewrite sys_step_select. destruct sel as [|x sel]; [done|].
  intros k sel' Hk. simpl in *. apply lookup_insert_Some in Hk as [[<- _]|[_ Hk]]; [lia|].
  apply H in Hk. lia.
- destruct (sys_step_settle s k) as [->|(sel & _ & _ & ->)]; [done|].
  intros k' sel' Hk. simpl in Hk. apply lookup_delete_Some in Hk as [_ Hk]. by eapply H.
Qed.

Lemma loading_inv_step s e : loading_inv s -> loading_inv (sys_step compose s e).
Proof.
intros H. destruct e as [sel|k].
- rewrite sys_step_select. destruct sel as [|x sel]; [done|].
  intros _. simpl. apply insert_non_empty.
- destruct (sys_step_settle s k) as [->|(sel & _ & Hp & ->)]; [done|].
  unfold loading_inv. simpl. by rewrite settle_handler_loading.
Qed.

Lemma render_loading sel st n : render sel st = LoadingView n -> loading st = true.
Proof. unfold render. repeat case_decide; destruct (loading st); done. Qed.

(** C23.  No spinner is left over: in every run, once no request is in
  flight the component does not show "Generating combined flag...". *)
Theorem idle_not_loading evs :
sys_pending (run compose initial_sys evs) = ∅ ->
forall n, view (run compose initial_sys evs) <> LoadingView n.
Proof.
intros Hp n Hv. apply render_loading in Hv.
assert (loading_inv (run compose initial_sys evs)) as Hinv.
{ unfold run. apply foldl_invariant; [done|]. intros. by apply loading_inv_step. }
by apply Hinv.
Qed.
End Invariants.

(** ** The component against the state machine of spec.md section 4.1 *)

(** [Idle -> Resolving -> Succeeded | Failed], restarted by every change
    of the input; the outcome of a request for an input that has since
    changed is discarded. *)
Module CFSpec.
Inductive phase :=
| Idle
| Resolving
| Succeeded (url : string)
| Failed.

Record state := mkState { input : list string; ph : phase }.

Definition init : state := mkState [] Idle.

Definition select (sel : list string) : state :=
mkState sel (if decide (sel = []) then Idle else Resolving).

Definition settle (compose : list string -> promise string CompositeError)
  (s : state) : state :=
match ph s with
| Resolving =>
    match compose (input s) with
    | Pending => s
    | Fulfilled u => mkState (input s) (Succeeded u)
    | Rejected _ => mkState (input s) Failed
    end
| _ => s
end.

(** What the caller shows (spec.md section 7): a prompt, a progress
  indicator, the composite or an error. *)
Definition view (s : state) : View :=
match ph s with
| Idle => NoSelectionView
| Resolving => LoadingView (length (input s))
| Succeeded u =>
    if decide (u <> "") then FlagView u (length (input s)) else NoFlagView (length (input s))
| Failed => ErrorView failure_message
end.
End CFSpec.

Section Refinement.
Variable compose : list string -> promise string CompositeError.

(** The spec's step for an event of the code: a [Settle] is taken to be
  the settlement of the current request. *)
Definition spec_step (sp : CFSpec.state) (e : Event) : CFSpec.state :=
match e with
| Select sel => CFSpec.select sel
| Settle _ => CFSpec.settle compose sp
end.

(** The runs in which only the latest request ever settles: the requests
  made stale by a newer selection never do. *)
Fixpoint latest_only (s : Sys) (evs : list Event) : Prop :=
match evs with
| [] => True
| e :: evs' =>
    match e with Settle k => S k = sys_next s | Select _ => True end /\
    latest_only (sys_step compose s e) evs'
end.

(** The simulation relation. *)
Definition sim (s : Sys) (sp : CFSpec.state) : Prop :=
fresh_ids s /\ sys_sel s = CFSpec.input sp /\
let st := sys_state s in
match CFSpec.ph sp with
| CFSpec.Idle => CFSpec.input sp = []
| CFSpec.Resolving =>
    CFSpec.input sp <> [] /\ loading st = true /\ error st = "" /\
    sys_pending s !! pred (sys_next s) = Some (CFSpec.input sp) /\ sys_next s <> 0
| CFSpec.Succeeded u =>
    CFSpec.input sp <> [] /\ loading st = false /\ error st = "" /\
    combinedFlagUrl st = u /\ sys_pending s !! pred (sys_next s) = None
| CFSpec.Failed =>
    CFSpec.input sp <> [] /\ loading st = false /\ error st = failure_message /\
    sys_pending s !! pred (sys_next s) = None
end.

Lemma sim_view s sp : sim s sp -> view s = CFSpec.view sp.
Proof.
intros (_ & Hsel & Hph). cbv zeta in Hph. unfold view, render, CFSpec.view. rewrite Hsel.
destruct (CFSpec.ph sp) as [| |u|].
- by rewrite decide_True.
- destruct Hph as (Hne & Hl & _). rewrite decide_False by done. by rewrite Hl.
- destruct Hph as (Hne & Hl & He & Hu & _).
  rewrite decide_False by done. rewrite Hl, He, Hu. rewrite decide_False by naive_solver.
  done.
- destruct Hph as (Hne & Hl & He & _).
  rewrite decide_False by done. rewrite Hl, He. by rewrite decide_True.
Qed.

Lemma sim_step s sp e :
sim s sp -> match e with Settle k => S k = sys_next s | Select _ => True end ->
sim (sys_step compose s e) (spec_step sp e).
Proof.
intros Hsim He. pose proof (fresh_ids_step compose s e (proj1 Hsim)) as Hfresh.
destruct Hsim as (Hf & Hsel & Hph). cbv zeta in Hph. destruct e as [sel|k].
- revert Hfresh. rewrite sys_step_select. unfold spec_step, CFSpec.select.
  destruct sel as [|x sel]; intros Hfresh.
  + split; [done|]. simpl. done.
  + split; [done|]. simpl. try rewrite decide_False by done. simpl.
    repeat split; try done. by rewrite lookup_insert_eq.
- simpl in He. assert (k = pred (sys_next s)) as -> by lia.
  revert Hfresh. cbn [spec_step]. unfold CFSpec.settle.
  destruct (CFSpec.ph sp) as [| |u|] eqn:Eph; simpl in Hph; intros Hfresh.
  + destruct (sys_step_settle compose s (pred (sys_next s))) as [E|(sel & _ & _ & E)];
      rewrite E in Hfresh |- *; (split; [done|]); simpl; by rewrite ?Eph.
  + destruct Hph as (Hne & Hload & Herr & Hpend & Hnz).
    revert Hfresh. simpl. rewrite Hpend, <-Hsel.
    destruct (compose (sys_sel s)) as [|u|e'] eqn:Ec; intros Hfresh.
    * split; [done|]. split; [done|]. rewrite Eph. simpl.
      repeat split; try done.
    * split; [done|]. split; [done|]. simpl. repeat split; try done.
      -- by rewrite Hsel.
      -- by rewrite lookup_delete_eq.
    * split; [done|]. split; [done|]. simpl. repeat split; try done.
      -- by rewrite Hsel.
      -- by rewrite lookup_delete_eq.
  + destruct Hph as (Hne & Hload & Herr & Hurl & Hpend).
    revert Hfresh. simpl. rewrite Hpend. intros Hfresh.
    split; [done|]. split; [done|]. rewrite Eph. simpl. done.
  + destruct Hph as (Hne & Hload & Herr & Hpend).
    revert Hfresh. simpl. rewrite Hpend. intros Hfresh.
    split; [done|]. split; [done|]. rewrite Eph. simpl. done.
Qed.

Lemma sim_init : sim initial_sys CFSpec.init.
Proof. repeat split; intros ??; simpl; done. Qed.

(** The simulation along a run in which only the latest request settles. *)
Lemma run_sim s sp evs :
sim s sp -> latest_only s evs -> sim (run compose s evs) (foldl spec_step sp evs).
Proof.
revert s sp. induction evs as [|e evs IH]; intros s sp Hs Hl; [done|].
destruct Hl as [He Hl]. simpl. apply IH; [by apply sim_step|done].
Qed.

(** C6.  Refinement of the state machine of spec.md section 4.1: in a
  run where no request made stale by a newer selection ever settles,
  the component shows exactly what the specification's state machine
  shows after every event. *)
Theorem view_refines_spec evs :
latest_only initial_sys evs ->
view (run compose initial_sys evs) = CFSpec.view (foldl spec_step CFSpec.init evs).
Proof. intros Hl. apply sim_view, run_sim; [apply sim_init|done]. Qed.
End Refinement.

(** ** Witnesses *)

Module Examples.
(** Two flags that compose, and a selection whose composite fails. *)
Definition compose_ex (sel : list string) : promise string CompositeError :=
match sel with
| ["fr"] => Fulfilled "data:image/png;base64,fr"
| ["de"] => Fulfilled "data:image/png;base64,de"
| _ => Rejected AllImagesFailed
end.
End Examples.

Import Examples.

Lemma stale_composite_shown_witness :
  compose_ex ["fr"] = Fulfilled "data:image/png;base64,fr" /\
  view (run compose_ex initial_sys [Select ["fr"]; Select ["de"]; Settle 1; Settle 0])
    = FlagView "data:image/png;base64,fr" 1.
Proof.
  split; [reflexivity|].
  apply (stale_composite_shown compose_ex ["fr"] ["de"] "data:image/png;base64,fr"
           "data:image/png;base64,de"); done.
Defined.

Lemma stale_error_hides_composite_witness :
  compose_ex ["xx"] = Rejected AllImagesFailed /\
  view (run compose_ex initial_sys [Select ["xx"]; Select ["de"]; Settle 1; Settle 0])
    = ErrorView failure_message.
Proof.
  split; [reflexivity|].
  apply (stale_error_hides_composite compose_ex ["xx"] ["de"] AllImagesFailed
           "data:image/png;base64,de"); done.
Defined.

Lemma idle_not_loading_witness :
  sys_pending (run compose_ex initial_sys [Select ["fr"]; Select ["de"]; Settle 0; Settle 1]) = ∅ /\
  view (run compose_ex initial_sys [Select ["fr"]; Select ["de"]; Settle 0; Settle 1])
    <> LoadingView 1.
Proof.
  assert (sys_pending (run compose_ex initial_sys
            [Select ["fr"]; Select ["de"]; Settle 0; Settle 1]) = ∅) as H by reflexivity.
  split; [exact H|]. by apply idle_not_loading.
Defined.

Lemma view_refines_spec_witness :
  latest_only compose_ex initial_sys [Select ["fr"]; Settle 0; Select []; Select ["de"]; Settle 1] /\
  view (run compose_ex initial_sys
                     [Select ["fr"]; Settle 0; Select []; Select ["de"]; Settle 1]) =
  CFSpec.view (foldl (spec_step compose_ex) CFSpec.init
                 [Select ["fr"]; Settle 0; Select []; Select ["de"]; Settle 1]).
Proof.
  assert (latest_only compose_ex initial_sys
            [Select ["fr"]; Settle 0; Select []; Select ["de"]; Settle 1]) as H.
  { simpl. repeat split. }
  split; [exact H|]. by apply view_refines_spec.
Defined.
