(* ===== verification/Selection.v ===== *)
(** * The selection: [App] and [CountryList]

    Sources: src/src/App.tsx (the selection state and its handlers) and
    src/src/components/CountryList.tsx (the continents' expanded flags,
    the select-all and deselect-all buttons, the checkboxes).

    The country data ([../data/countries], not in the repository) is
    the section variable [countriesData]: a list of continents, each
    with its countries in order.  [AppState] holds the state of both
    components.  [app_step] runs one click: it calls the handler the
    click's [onClick] or [onChange] calls, and does nothing when the
    button is disabled.  The checkbox and the continent buttons go
    through CountryList's handlers and the props App passes it
    ([CountryListProps], [app_props]).  The random sort of
    [getRandomCountries] is an argument of the click: the order the
    sort produced.

    Theorems:
    - duplicate-free selections of known codes are an invariant of
      every sequence of clicks;
    - the select-all and deselect-all buttons make [areAllSelected] and
      [areNoneSelected] true;
    - toggling a continent twice shows the same thing again, up to the
      equivalence [expanded_equiv] (a [Proper] instance);
    - [getCountryNameFromCode] returns the first match or the code;
    - Random picks two different countries, as its comment says, or
      fewer when the data has fewer. *)

From stdpp Require Import strings gmap.
From S2P Require Import Prelude.

Local Open Scope nat_scope.

(** The shape of [countriesData] (from [../data/countries]). *)
Record Country := mkCountry { code : string; name : string }.
Record Continent := mkContinent { continent_name : string; countries : list Country }.

(** [arr.includes(x)] on an array of strings. *)
Definition includes (l : list string) (x : string) : bool := bool_decide (x ∈ l).

(** [expandedContinents[name]], falsy when absent (CountryList.tsx,
    lines 60 and 80). *)
Definition isExpanded (m : gmap string bool) (n : string) : bool := default false (m !! n).

(** CountryList.tsx, lines 13-18: [{...prev, [name]: !prev[name]}]. *)
Definition toggleContinent (continentName : string) (prev : gmap string bool)
    : gmap string bool :=
  <[continentName := negb (isExpanded prev continentName)]> prev.

Record AppState := mkAppState {
  selectedCountries : list string;
  isCountriesListVisible : bool;
  expandedContinents : gmap string bool;
}.

(** The clicks.  [CheckboxChange c]: the checkbox of country [c], whose
    [onChange] passes the new checked state, the negation of
    [selectedCountries.includes(c)].  [RandomClick sortRandom]: the
    random button, with [sortRandom] the result of
    [sort(() => 0.5 - Math.random())]. *)
Inductive UIEvent :=
| CheckboxChange (c : string)
| SelectAllClick (continent : string)
| DeselectAllClick (continent : string)
| RandomClick (sortRandom : list string -> list string)
| ToggleListClick
| ContinentTitleClick (continent : string).

Section App.
Variable countriesData : list Continent.

(** App.tsx, lines 9-13. *)
Definition getAllCountryCodes : list string :=
  countriesData ≫= (fun continent => code <$> countries continent).

(** App.tsx, lines 16-20, given the sort's result. *)
Definition getRandomCountries (sortRandom : list string -> list string) (count : nat)
    : list string :=
  take count (sortRandom getAllCountryCodes).

(** App.tsx, lines 23-31. *)
Fixpoint find_name (cs : list Continent) (c : string) : string :=
  match cs with
  | [] => c
  | continent :: cs' =>
      match find (fun country => String.eqb (code country) c) (countries continent) with
      | Some country => name country
      | None => find_name cs' c
      end
  end.

Definition getCountryNameFromCode (c : string) : string := find_name countriesData c.

(** [countriesData.find(c => c.name === continentName)]. *)
Definition findContinent (continentName : string) : option Continent :=
  find (fun continent => String.eqb (continent_name continent) continentName) countriesData.

(** App.tsx, lines 37-43. *)
Definition handleCountrySelect (countryCode : string) (isSelected : bool)
    (prev : list string) : list string :=
  if isSelected then prev ++ [countryCode]
  else filter (fun c => c <> countryCode) prev.

(** App.tsx, lines 45-62.  [selectedCountries] of the closure and [prev]
    of the updater are the same list: React renders between clicks. *)
Definition handleSelectAllInContinent (continentName : string) (isSelected : bool)
    (prev : list string) : list string :=
  match findContinent continentName with
  | None => prev
  | Some continent =>
      if isSelected then
        prev ++ filter (fun c => c ∉ prev) (code <$> countries continent)
      else filter (fun c => c ∉ code <$> countries continent) prev
  end.

(** CountryList.tsx, lines 29-36. *)
Definition areAllSelected (selected : list string) (continentName : string) : bool :=
  match findContinent continentName with
  | None => false
  | Some continent => forallb (fun country => includes selected (code country)) (countries continent)
  end.

(** CountryList.tsx, lines 39-46. *)
Definition areNoneSelected (selected : list string) (continentName : string) : bool :=
  match findContinent continentName with
  | None => true
  | Some continent =>
      forallb (fun country => negb (includes selected (code country))) (countries continent)
  end.

(** CountryList.tsx, lines 4-8: the props of [CountryList].  A callback
    is a state update of App: the new selection from the previous one. *)
Record CountryListProps := mkCountryListProps {
  onCountrySelect : string -> bool -> list string -> list string;
  onSelectAllInContinent : string -> bool -> list string -> list string;
  selectedCountries_prop : list string;
}.

(** App.tsx, lines 100-104: the props App passes. *)
Definition app_props (sel : list string) : CountryListProps :=
  mkCountryListProps handleCountrySelect handleSelectAllInContinent sel.

(** CountryList.tsx, lines 20-22. *)
Definition handleCountryChange (props : CountryListProps) (countryCode : string)
    (isChecked : bool) : list string -> list string :=
  onCountrySelect props countryCode isChecked.

(** CountryList.tsx, lines 24-26. *)
Definition cl_handleSelectAllInContinent (props : CountryListProps) (continentName : string)
    (isSelected : bool) : list string -> list string :=
  onSelectAllInContinent props continentName isSelected.

(** One click; a disabled button does nothing (CountryList.tsx, lines
    66 and 73).  The checkbox and the continent buttons go through
    CountryList's handlers and the props App passes. *)
Definition app_step (s : AppState) (e : UIEvent) : AppState :=
  let sel := selectedCountries s in
  let props := app_props sel in
  match e with
  | CheckboxChange c =>
      mkAppState (handleCountryChange props c (negb (includes (selectedCountries_prop props) c)) sel)
        (isCountriesListVisible s) (expandedContinents s)
  | SelectAllClick n =>
      if areAllSelected (selectedCountries_prop props) n then s
      else mkAppState (cl_handleSelectAllInContinent props n true sel)
             (isCountriesListVisible s) (expandedContinents s)
  | DeselectAllClick n =>
      if areNoneSelected (selectedCountries_prop props) n then s
      else mkAppState (cl_handleSelectAllInContinent props n false sel)
             (isCountriesListVisible s) (expandedContinents s)
  | RandomClick sortRandom =>
      mkAppState (getRandomCountries sortRandom 2)
        (isCountriesListVisible s) (expandedContinents s)
  | ToggleListClick =>
      mkAppState sel (negb (isCountriesListVisible s)) (expandedContinents s)
  | ContinentTitleClick n =>
      mkAppState sel (isCountriesListVisible s) (toggleContinent n (expandedContinents s))
  end.

(** CountryList.tsx, line 11: [useState<Record<string, boolean>>({})]. *)
Definition initial_expanded : gmap string bool := ∅.

(** App.tsx, lines 34-35, and CountryList.tsx, line 11. *)
Definition initial_app (sortRandom : list string -> list string) : AppState :=
  mkAppState (getRandomCountries sortRandom 2) true initial_expanded.

Definition run_app (s : AppState) (evs : list UIEvent) : AppState := foldl app_step s evs.
End App.

(** Unfold the props App passes to CountryList and CountryList's
    handlers that call them. *)
Ltac unfold_props :=
  cbn [handleCountryChange cl_handleSelectAllInContinent app_props onCountrySelect
       onSelectAllInContinent selectedCountries_prop] in *.

(** ** The selection stays a set of known codes *)

Section SelectionProofs.
Variable countriesData : list Continent.

(** What the UI can produce: a checkbox exists only for a country of the
    data, and the random sort returns a permutation of its input. *)
Definition valid_event (e : UIEvent) : Prop :=
  match e with
  | CheckboxChange c => c ∈ getAllCountryCodes countriesData
  | RandomClick sortRandom => forall l, sortRandom l ≡ₚ l
  | _ => True
  end.

Definition sel_ok (sel : list string) : Prop :=
  NoDup sel /\ Forall (fun c => c ∈ getAllCountryCodes countriesData) sel.

Lemma includes_spec l x : includes l x = true <-> x ∈ l.
Proof. unfold includes. apply bool_decide_eq_true. Qed.

Lemma findContinent_in n ct :
  findContinent countriesData n = Some ct -> ct ∈ countriesData.
Proof. intros H. apply find_some in H as [H _]. by apply list_elem_of_In. Qed.

Lemma continent_codes_known ct :
  ct ∈ countriesData ->
  Forall (fun c => c ∈ getAllCountryCodes countriesData) (code <$> countries ct).
Proof.
  intros Hct. apply Forall_forall. intros c Hc. unfold getAllCountryCodes.
  apply list_elem_of_bind. by exists ct.
Qed.

Lemma continent_codes_NoDup ct :
  NoDup (getAllCountryCodes countriesData) -> ct ∈ countriesData ->
  NoDup (code <$> countries ct).
Proof.
  intros Hnd Hct. apply list_elem_of_split in Hct as (l1 & l2 & Hl).
  unfold getAllCountryCodes in Hnd. rewrite Hl, bind_app, bind_cons in Hnd.
  apply NoDup_app in Hnd as (_ & _ & Hnd). by apply NoDup_app in Hnd as [? _].
Qed.

Lemma sel_ok_filter (P : string -> Prop) `{!forall x, Decision (P x)} sel :
  sel_ok sel -> sel_ok (filter P sel).
Proof.
  intros [Hnd Hk]. split; [by apply NoDup_filter|]. by apply Forall_filter_l.
Qed.

Lemma sel_ok_app sel extra :
  sel_ok sel -> NoDup extra -> Forall (fun c => c ∉ sel) extra ->
  Forall (fun c => c ∈ getAllCountryCodes countriesData) extra ->
  sel_ok (sel ++ extra).
Proof.
  intros [Hnd Hk] Hnd' Hdisj Hk'. split; [|by apply Forall_app].
  apply NoDup_app. split; [done|]. split; [|done].
  intros x Hx Hx'. rewrite Forall_forall in Hdisj. by apply (Hdisj x).
Qed.

Lemma sel_ok_random sortRandom :
  NoDup (getAllCountryCodes countriesData) -> (forall l, sortRandom l ≡ₚ l) ->
  sel_ok (getRandomCountries countriesData sortRandom 2).
Proof.
  intros Hnd Hperm. unfold getRandomCountries. split.
  - eapply sublist_NoDup; [|apply sublist_take]. by rewrite Hperm.
  - apply Forall_forall. intros c Hc. apply elem_of_take in Hc as (i & Hi & _).
    apply list_elem_of_lookup_2 in Hi. by rewrite Hperm in Hi.
Qed.

Lemma app_step_sel_ok s e :
  NoDup (getAllCountryCodes countriesData) -> valid_event e ->
  sel_ok (selectedCountries s) -> sel_ok (selectedCountries (app_step countriesData s e)).
Proof.
  intros Hnd He Hs. destruct e as [c|n|n|sortRandom| |n]; simpl; try done.
  - unfold handleCountrySelect. destruct (includes (selectedCountries s) c) eqn:Ei; simpl.
    + by apply sel_ok_filter.
    + apply sel_ok_app; [done|apply NoDup_singleton| |by constructor].
      constructor; [|done]. intros Hc. apply includes_spec in Hc. congruence.
  - destruct (areAllSelected _ _ _); [done|]. simpl. unfold handleSelectAllInContinent.
    destruct (findContinent countriesData n) as [ct|] eqn:Ef; [|done]. simpl.
    pose proof (findContinent_in _ _ Ef) as Hct.
    apply sel_ok_app; [done| |apply Forall_filter_self|].
    + apply NoDup_filter. by apply continent_codes_NoDup.
    + apply Forall_filter_l. by apply continent_codes_known.
  - destruct (areNoneSelected _ _ _); [done|]. simpl. unfold handleSelectAllInContinent.
    destruct (findContinent countriesData n) as [ct|]; [|done]. by apply sel_ok_filter.
  - by apply sel_ok_random.
Qed.

(** Every run of valid clicks from a valid selection keeps it valid. *)
Lemma run_app_sel_ok s evs :
  NoDup (getAllCountryCodes countriesData) -> Forall valid_event evs ->
  sel_ok (selectedCountries s) -> sel_ok (selectedCountries (run_app countriesData s evs)).
Proof.
  intros Hnd Hevs. unfold run_app. revert s.
  induction Hevs as [|e evs He _ IH]; intros s Hs; simpl; [done|].
  apply IH. by apply app_step_sel_ok.
Qed.

(** C25.  "Function to get two random different countries" (App.tsx
    line 15): with duplicate-free codes, Random selects [min 2 n]
    different known codes, where [n] is the number of countries: two
    when the data has two or more, fewer at the boundary. *)
Theorem random_two_different sortRandom :
  NoDup (getAllCountryCodes countriesData) -> (forall l, sortRandom l ≡ₚ l) ->
  length (getRandomCountries countriesData sortRandom 2) =
    Nat.min 2 (length (getAllCountryCodes countriesData)) /\
  sel_ok (getRandomCountries countriesData sortRandom 2).
Proof.
  intros Hnd Hperm. split; [|by apply sel_ok_random].
  unfold getRandomCountries. rewrite length_take, (Permutation_length (Hperm _)). lia.
Qed.

(** C24.  Invariant of the App state: after any sequence of clicks the
    UI can make, the selected codes are known country codes without
    duplicates (so the [key={code}] of the list items is unique).  This
    needs the data's codes to be duplicate-free. *)
Theorem selection_invariant sortRandom evs :
  NoDup (getAllCountryCodes countriesData) -> (forall l, sortRandom l ≡ₚ l) ->
  Forall valid_event evs ->
  sel_ok (selectedCountries (run_app countriesData (initial_app countriesData sortRandom) evs)).
Proof.
  intros Hnd Hperm Hevs. apply run_app_sel_ok; [done..|]. by apply sel_ok_random.
Qed.
End SelectionProofs.

(** ** The continent buttons *)

Section ContinentButtons.
Variable countriesData : list Continent.

(** C27.  After "Select All" on a continent of the data, all its
    countries are selected (so the button becomes disabled), and the
    previous selection is kept, in order, in front. *)
Theorem select_all_selects_continent n ct sel :
  findContinent countriesData n = Some ct ->
  areAllSelected countriesData (handleSelectAllInContinent countriesData n true sel) n = true /\
  exists added, handleSelectAllInContinent countriesData n true sel = sel ++ added.
Proof.
  intros Hf. unfold areAllSelected, handleSelectAllInContinent. rewrite Hf. split; [|by eexists].
  apply forallb_forall. intros country Hin. apply includes_spec.
  destruct (decide (code country ∈ sel)) as [Hs|Hs].
  - apply elem_of_app. by left.
  - apply elem_of_app. right. apply list_elem_of_filter. split; [done|].
    apply list_elem_of_fmap. exists country. split; [done|]. by apply list_elem_of_In.
Qed.

(** C28.  After "Deselect All" on a continent of the data, none of its
    countries is selected, and every other code keeps its membership. *)
Theorem deselect_all_clears_continent n ct sel :
  findContinent countriesData n = Some ct ->
  areNoneSelected countriesData (handleSelectAllInContinent countriesData n false sel) n = true /\
  forall c, c ∉ code <$> countries ct ->
    (c ∈ handleSelectAllInContinent countriesData n false sel <-> c ∈ sel).
Proof.
  intros Hf. unfold areNoneSelected, handleSelectAllInContinent. rewrite Hf. split.
  - apply forallb_forall. intros country Hin. apply negb_true_iff.
    destruct (includes _ _) eqn:E; [exfalso|done].
    apply includes_spec, list_elem_of_filter in E as [Hn _]. apply Hn.
    apply list_elem_of_fmap. exists country. split; [done|]. by apply list_elem_of_In.
  - intros c Hc. rewrite list_elem_of_filter. split; [by intros [_ ?]|done].
Qed.
End ContinentButtons.

(** ** Expanded continents, up to what the list shows *)

(** Two records of expanded continents are equivalent when they show the
    same continents expanded; [undefined] and [false] look the same. *)
Definition expanded_equiv (m1 m2 : gmap string bool) : Prop :=
  forall n, isExpanded m1 n = isExpanded m2 n.

#[export] Instance expanded_equiv_equivalence : Equivalence expanded_equiv.
Proof.
  split.
  - intros m n. done.
  - intros m1 m2 H n. by rewrite H.
  - intros m1 m2 m3 H1 H2 n. by rewrite H1, H2.
Qed.

#[export] Instance isExpanded_proper : Proper (expanded_equiv ==> eq ==> eq) isExpanded.
Proof. intros m1 m2 Hm n ? <-. apply Hm. Qed.

Lemma isExpanded_toggle n m k :
  isExpanded (toggleContinent n m) k = if decide (n = k) then negb (isExpanded m n) else isExpanded m k.
Proof. unfold toggleContinent, isExpanded at 1. rewrite lookup_insert. by case_decide. Qed.

#[export] Instance toggleContinent_proper :
  Proper (eq ==> expanded_equiv ==> expanded_equiv) toggleContinent.
Proof.
  intros n ? <- m1 m2 Hm k. rewrite !isExpanded_toggle. case_decide; subst; by rewrite Hm.
Qed.

(** C35.  Clicking a continent's title twice shows it as before: the
    record is equivalent to the one before the two clicks, and two
    equivalent records stay equivalent under any clicks.  It need not be
    equal: an absent continent comes back as [false]. *)
Theorem toggleContinent_twice n m :
  expanded_equiv (toggleContinent n (toggleContinent n m)) m /\
  (m !! n = None -> toggleContinent n (toggleContinent n m) <> m).
Proof.
  split.
  - intros k. rewrite !isExpanded_toggle. case_decide; subst; [|done].
    rewrite decide_True by done. apply negb_involutive.
  - intros Hn Heq. apply (f_equal (lookup n)) in Heq.
    unfold toggleContinent in Heq. rewrite lookup_insert_eq, Hn in Heq. discriminate.
Qed.

(** The expanded continents after a sequence of title clicks. *)
Definition toggle_all (names : list string) (m : gmap string bool) : gmap string bool :=
  foldl (fun m n => toggleContinent n m) m names.

#[export] Instance toggle_all_proper names :
  Proper (expanded_equiv ==> expanded_equiv) (toggle_all names).
Proof.
  induction names as [|n names IH]; intros m1 m2 Hm; simpl; [done|].
  apply IH. by rewrite Hm.
Qed.

(** ** Country names *)

Section Names.
Variable countriesData : list Continent.

(** C36.  [getCountryNameFromCode]'s loop over the continents, each with
    its own [find], is the first country with that code in the whole
    data, flattened in order; a code no country has is returned as is. *)
Theorem getCountryNameFromCode_first c :
  getCountryNameFromCode countriesData c =
    match find (fun country => String.eqb (code country) c) (countriesData ≫= countries) with
    | Some country => name country
    | None => c
    end.
Proof.
  unfold getCountryNameFromCode. induction countriesData as [|ct cs IH]; [done|].
  simpl. rewrite find_app. destruct (find _ (countries ct)); [done|]. apply IH.
Qed.
End Names.

(** ** Witnesses *)

Module Examples.
Definition europe : Continent :=
  mkContinent "Europe" [mkCountry "fr" "France"; mkCountry "de" "Germany"].
Definition asia : Continent := mkContinent "Asia" [mkCountry "jp" "Japan"].
Definition data : list Continent := [europe; asia].
End Examples.

Import Examples.

Lemma selection_invariant_witness :
  NoDup (getAllCountryCodes data) /\ (forall l : list string, rev l ≡ₚ l) /\
  Forall (valid_event data)
    [CheckboxChange "jp"; SelectAllClick "Europe"; DeselectAllClick "Asia";
     RandomClick (@rev string); ContinentTitleClick "Asia"] /\
  sel_ok data (selectedCountries (run_app data (initial_app data (@rev string))
    [CheckboxChange "jp"; SelectAllClick "Europe"; DeselectAllClick "Asia";
     RandomClick (@rev string); ContinentTitleClick "Asia"])).
Proof.
  assert (NoDup (getAllCountryCodes data)) as Hnd
    by (apply (bool_decide_unpack _); vm_compute; reflexivity).
  assert (forall l : list string, rev l ≡ₚ l) as Hrev
    by (intros l; symmetry; apply Permutation_rev).
  assert (Forall (valid_event data)
    [CheckboxChange "jp"; SelectAllClick "Europe"; DeselectAllClick "Asia";
     RandomClick (@rev string); ContinentTitleClick "Asia"]) as Hev.
  { constructor.
    { cbn [valid_event]. apply (bool_decide_unpack _). vm_compute. reflexivity. }
    do 2 (constructor; [exact I|]). constructor; [exact Hrev|].
    constructor; [exact I|]. constructor. }
  split; [exact Hnd|]. split; [exact Hrev|]. split; [exact Hev|].
  by apply selection_invariant.
Defined.

Lemma select_all_selects_continent_witness :
  findContinent data "Europe" = Some europe /\
  areAllSelected data (handleSelectAllInContinent data "Europe" true ["jp"]) "Europe" = true.
Proof.
  split; [reflexivity|].
  apply (select_all_selects_continent data "Europe" europe ["jp"]). reflexivity.
Defined.

Lemma deselect_all_clears_continent_witness :
  findContinent data "Europe" = Some europe /\
  areNoneSelected data (handleSelectAllInContinent data "Europe" false ["fr"; "jp"]) "Europe"
    = true.
Proof.
  split; [reflexivity|].
  apply (deselect_all_clears_continent data "Europe" europe ["fr"; "jp"]). reflexivity.
Defined.

Lemma random_two_different_witness :
  NoDup (getAllCountryCodes data) /\ (forall l : list string, rev l ≡ₚ l) /\
  length (getRandomCountries data (@rev string) 2) = 2.
Proof.
  assert (NoDup (getAllCountryCodes data)) as Hnd
    by (apply (bool_decide_unpack _); vm_compute; reflexivity).
  assert (forall l : list string, rev l ≡ₚ l) as Hrev
    by (intros l; symmetry; apply Permutation_rev).
  split; [exact Hnd|]. split; [exact Hrev|].
  rewrite (proj1 (random_two_different data (@rev string) Hnd Hrev)). reflexivity.
Defined.
