(* ===== verification/Views.v ===== *)
(** * The renders of [CountryList] and [App]

    Sources: src/src/components/CountryList.tsx, lines 48-107 (one
    section per continent: title, arrow, the two buttons and, when
    expanded, one checkbox item per country), and src/src/App.tsx,
    lines 69-107 (the header with the count, the Random and Hide/Show
    buttons, the list of selected names, and the two children).

    A render is a value: [countryList_view] and [app_view] return the
    parts of the markup that depend on the state (texts, [checked],
    [disabled], [key]s and the shown branches), in document order.
    [resolve] is [new URL(path, import.meta.url).href] for a module of
    [src/components]: the page's base URL is not in the repository.
    [img_loads] says whether the browser loads a flag image: when it
    does not, the [onError] handler of lines 93-97 hides it.

    The theorems show that the view agrees with the state: the React
    keys of every list are unique, a checkbox shows the new state after
    its click, the two buttons are disabled exactly when the view shows
    all (or none) of the continent's boxes checked, a title click shows
    or hides that continent's countries only, and clicking an
    unchecked box twice gives the selection back. *)

From stdpp Require Import strings gmap.
From S2P Require Import Prelude Selection.

Local Open Scope nat_scope.

(** Line 60: ['▼'] or ['►']. *)
Inductive Arrow := ArrowDown | ArrowRight.

(** Lines 83-100: one [<label key={country.code}>]. *)
Record CountryItem := mkCountryItem {
  item_key : string;       (** [key={country.code}] *)
  item_checked : bool;     (** [checked={...}], line 86 *)
  item_src : string;       (** the [<img src>], line 90 *)
  item_alt : string;       (** [alt], line 91 *)
  item_img_shown : bool;   (** [display] is not ['none'], lines 93-97 *)
  item_label : string;     (** [country.name], line 99 *)
}.

(** Lines 53-104: one [<div key={continent.name}>]. *)
Record ContinentSection := mkContinentSection {
  sec_key : string;
  sec_title : string;
  sec_arrow : Arrow;
  sec_selectAllDisabled : bool;    (** line 66 *)
  sec_deselectAllDisabled : bool;  (** line 73 *)
  sec_grid : option (list CountryItem);  (** lines 80-103 *)
}.

(** App.tsx, lines 70-106. *)
Record AppView := mkAppView {
  av_flag_prop : list string;       (** [<CombinedFlag selectedCountries>], line 72 *)
  av_header_count : nat;            (** [Selected Countries ({...length})], line 75 *)
  av_toggle_label : string;         (** ['Hide'] or ['Show'], line 87 *)
  av_names : option (list (string * string));  (** [key] and text of each [<li>], 91-97 *)
  av_country_list : list ContinentSection;      (** lines 100-104 *)
}.

Section Render.
Variable countriesData : list Continent.
Variable resolve : string -> string.
Variable img_loads : string -> bool.

(** The template literal [`../assets/flags/${code}.svg`] (CountryList.tsx
    line 90, CombinedFlag.tsx line 164). *)
Definition flag_path (c : string) : string := String.append "../assets/flags/" (String.append c ".svg").

Definition flag_href (c : string) : string := resolve (flag_path c).

(** Lines 82-101, for one country. *)
Definition country_item (selected : list string) (country : Country) : CountryItem :=
  mkCountryItem (code country) (includes selected (code country)) (flag_href (code country))
    (String.append (name country) " flag") (img_loads (flag_href (code country))) (name country).

(** Lines 52-105, for one continent. *)
Definition continent_section (expanded : gmap string bool) (selected : list string)
    (continent : Continent) : ContinentSection :=
  let n := continent_name continent in
  mkContinentSection n n (if isExpanded expanded n then ArrowDown else ArrowRight)
    (areAllSelected countriesData selected n) (areNoneSelected countriesData selected n)
    (if isExpanded expanded n then Some (country_item selected <$> countries continent) else None).

(** CountryList.tsx, lines 48-107. *)
Definition countryList_view (expanded : gmap string bool) (selected : list string)
    : list ContinentSection :=
  continent_section expanded selected <$> countriesData.

(** App.tsx, lines 69-107. *)
Definition app_view (s : AppState) : AppView :=
  let sel := selectedCountries s in
  mkAppView sel (length sel) (if isCountriesListVisible s then "Hide" else "Show")
    (if isCountriesListVisible s
     then Some ((fun c => (c, getCountryNameFromCode countriesData c)) <$> sel) else None)
    (countryList_view (expandedContinents s) sel).
End Render.

(** ** React keys *)

(** The keys React needs unique among siblings: the [<li key={code}>]
    of the selected names (App.tsx line 94), the [<div
    key={continent.name}>] sections (CountryList.tsx line 53), and the
    [<label key={country.code}>] of each grid (line 83). *)
Definition react_keys_unique (v : AppView) : Prop :=
  (forall names, av_names v = Some names -> NoDup (fst <$> names)) /\
  NoDup (sec_key <$> av_country_list v) /\
  Forall (fun sec => forall items, sec_grid sec = Some items -> NoDup (item_key <$> items))
    (av_country_list v).

(** [includes] after the two updates of [handleCountrySelect]. *)
Lemma includes_snoc l c x :
  includes (l ++ [c]) x = if String.eqb x c then true else includes l x.
Proof.
  unfold includes. destruct (String.eqb_spec x c) as [->|Hne].
  - apply bool_decide_eq_true. apply elem_of_app. right. by left.
  - apply bool_decide_ext. rewrite elem_of_app, list_elem_of_singleton. tauto.
Qed.

Lemma includes_filter_ne l c x :
  includes (filter (fun y => y <> c) l) x = if String.eqb x c then false else includes l x.
Proof.
  unfold includes. destruct (String.eqb_spec x c) as [->|Hne].
  - apply bool_decide_eq_false. rewrite list_elem_of_filter. tauto.
  - apply bool_decide_ext. rewrite list_elem_of_filter. tauto.
Qed.

#[export] Hint Rewrite includes_snoc includes_filter_ne : fj_rw.

(** [filter (code => code !== c)] on a list without [c] is the list. *)
Lemma filter_ne_notin (l : list string) c : c ∉ l -> filter (fun y => y <> c) l = l.
Proof.
  induction l as [|x l IH]; intros Hc; [done|]. rewrite filter_cons.
  rewrite not_elem_of_cons in Hc. destruct Hc as [Hx Hc].
  rewrite decide_True by congruence. by rewrite IH.
Qed.

Section ViewProofs.
Variable countriesData : list Continent.
Variable resolve : string -> string.
Variable img_loads : string -> bool.

(** With distinct continent names, [countriesData.find] by the name of a
    continent finds that continent. *)
Lemma findContinent_name ct :
  NoDup (continent_name <$> countriesData) -> ct ∈ countriesData ->
  findContinent countriesData (continent_name ct) = Some ct.
Proof.
  unfold findContinent. induction countriesData as [|ct' cs IH]; intros Hnd Hin;
    [by apply not_elem_of_nil in Hin|].
  rewrite fmap_cons in Hnd. apply NoDup_cons in Hnd as [Hn Hnd]. simpl.
  destruct (String.eqb_spec (continent_name ct') (continent_name ct)) as [Heq|Hne].
  - apply elem_of_cons in Hin as [->|Hin]; [done|].
    exfalso. apply Hn. rewrite Heq. by apply list_elem_of_fmap_2.
  - apply elem_of_cons in Hin as [->|Hin]; [done|]. by apply IH.
Qed.

Lemma forallb_fmap_item sel (f : bool -> bool) cs :
  forallb (fun i => f (item_checked i)) (country_item resolve img_loads sel <$> cs) =
  forallb (fun country => f (includes sel (code country))) cs.
Proof. induction cs as [|c cs IH]; [done|]. simpl. f_equal. exact IH. Qed.

Lemma sel_ok_names_NoDup sel :
  sel_ok countriesData sel ->
  NoDup (fst <$> ((fun c => (c, getCountryNameFromCode countriesData c)) <$> sel)).
Proof. intros [Hnd _]. by rewrite <-list_fmap_compose, list_fmap_id. Qed.

(** C26.  Every React key of the page is unique among its siblings, in
    every state the clicks reach: the [<li>] of the selected names (by
    the selection invariant), the continent sections and the country
    labels of each grid.  This needs the data's country codes and
    continent names to be duplicate-free. *)
Theorem app_view_keys_unique sortRandom evs :
  NoDup (getAllCountryCodes countriesData) -> NoDup (continent_name <$> countriesData) ->
  (forall l, sortRandom l ≡ₚ l) -> Forall (valid_event countriesData) evs ->
  react_keys_unique (app_view countriesData resolve img_loads
    (run_app countriesData (initial_app countriesData sortRandom) evs)).
Proof.
  intros Hnd Hnames Hperm Hevs.
  pose proof (run_app_sel_ok countriesData (initial_app countriesData sortRandom) evs Hnd Hevs
    (sel_ok_random _ _ Hnd Hperm)) as Hs.
  set (s := run_app _ _ evs) in *. split; [|split].
  - intros names. cbn [app_view av_names]. destruct (isCountriesListVisible s); [|done].
    intros [= <-]. by apply sel_ok_names_NoDup.
  - cbn [app_view av_country_list]. unfold countryList_view. rewrite <-list_fmap_compose.
    by erewrite list_fmap_ext by (intros; reflexivity).
  - cbn [app_view av_country_list]. unfold countryList_view. apply Forall_fmap, Forall_forall.
    intros ct Hct items. cbn [compose continent_section sec_grid].
    destruct (isExpanded _ _); [|done]. intros [= <-]. rewrite <-list_fmap_compose.
    by apply (continent_codes_NoDup countriesData).
Qed.

(** C30.  A checkbox shows the new state after its click: the click on
    the box of [c] flips the [checked] of every box of code [c] (the
    box of [c] in each continent that lists it) and leaves every other
    box as it was. *)
Theorem checkbox_click_flips s c country :
  item_checked (country_item resolve img_loads
    (selectedCountries (app_step countriesData s (CheckboxChange c))) country) =
  if String.eqb (code country) c
  then negb (item_checked (country_item resolve img_loads (selectedCountries s) country))
  else item_checked (country_item resolve img_loads (selectedCountries s) country).
Proof.
  cbn [app_step selectedCountries country_item item_checked]. unfold_props.
  unfold handleCountrySelect.
  destruct (includes (selectedCountries s) c) eqn:Ec; simpl; autorewrite with fj_rw;
    destruct (String.eqb_spec (code country) c) as [->|]; by rewrite ?Ec.
Qed.

(** C29.  The two buttons of a continent agree with its checkboxes:
    "Select All" is disabled exactly when every box of the continent is
    checked, "Deselect All" exactly when none is.  With two continents
    of the same name, [countriesData.find] would take the first one's
    countries for both, so the names must be distinct. *)
Theorem buttons_match_checkboxes expanded sel ct :
  NoDup (continent_name <$> countriesData) -> ct ∈ countriesData ->
  sec_selectAllDisabled (continent_section countriesData resolve img_loads expanded sel ct) =
    forallb (fun i => item_checked i) (country_item resolve img_loads sel <$> countries ct) /\
  sec_deselectAllDisabled (continent_section countriesData resolve img_loads expanded sel ct) =
    forallb (fun i => negb (item_checked i)) (country_item resolve img_loads sel <$> countries ct).
Proof.
  intros Hnames Hct. cbn [continent_section sec_selectAllDisabled sec_deselectAllDisabled].
  unfold areAllSelected, areNoneSelected. rewrite findContinent_name by done.
  split; [exact (eq_sym (forallb_fmap_item sel (fun b => b) _))|].
  exact (eq_sym (forallb_fmap_item sel negb _)).
Qed.

(** C31.  Clicking a continent's title (CountryList.tsx line 57) shows
    its countries when they were hidden and hides them when they were
    shown, and flips its arrow; every other continent's section stays
    as it was. *)
Theorem title_click_toggles_grid s n ct :
  let sec e := continent_section countriesData resolve img_loads e (selectedCountries s) ct in
  let e' := expandedContinents (app_step countriesData s (ContinentTitleClick n)) in
  (continent_name ct = n ->
     (sec_grid (sec e') = None <-> is_Some (sec_grid (sec (expandedContinents s)))) /\
     sec_arrow (sec e') <> sec_arrow (sec (expandedContinents s))) /\
  (continent_name ct <> n -> sec e' = sec (expandedContinents s)).
Proof.
  intros sec e'. subst sec e'. cbn [app_step expandedContinents].
  unfold continent_section. rewrite isExpanded_toggle. split.
  - intros <-. rewrite decide_True by done. cbn [sec_grid sec_arrow].
    destruct (isExpanded _ _); cbn.
    + split; [split; [intros _; by eexists|done]|discriminate].
    + split; [split; [discriminate|intros [? ?]; discriminate]|discriminate].
  - intros Hn. by rewrite decide_False by congruence.
Qed.
End ViewProofs.

Section Checkboxes.
Variable countriesData : list Continent.

(** C32.  Clicking a checkbox twice: an unchecked box gives the selection
    back exactly; a checked box ends checked but its country moves to
    the end of the selection (and of the names shown), because checking
    appends ([[...prev, countryCode]]) and unchecking filters. *)

Theorem checkbox_twice s c :
  (c ∉ selectedCountries s ->
   selectedCountries (run_app countriesData s [CheckboxChange c; CheckboxChange c]) =
     selectedCountries s) /\
  (forall l1 l2, selectedCountries s = l1 ++ c :: l2 -> c ∉ l1 ++ l2 ->
   selectedCountries (run_app countriesData s [CheckboxChange c; CheckboxChange c]) =
     l1 ++ l2 ++ [c]).
Proof.
  unfold run_app. cbn [foldl app_step selectedCountries]. unfold_props.
  unfold handleCountrySelect. split.
  - intros Hc. assert (includes (selectedCountries s) c = false) as -> by
      (apply not_true_iff_false; by rewrite includes_spec).
    simpl. rewrite includes_snoc, String.eqb_refl. simpl.
    rewrite filter_app, filter_ne_notin by done. rewrite filter_cons, decide_False by tauto.
    apply app_nil_r.
  - intros l1 l2 Hs Hc. rewrite Hs.
    assert (includes (l1 ++ c :: l2) c = true) as -> by
      (apply includes_spec; apply elem_of_app; right; by left).
    simpl. rewrite filter_app, filter_cons, decide_False by tauto.
    rewrite <-filter_app, filter_ne_notin by done.
    assert (includes (l1 ++ l2) c = false) as -> by
      (apply not_true_iff_false; by rewrite includes_spec).
    simpl. by rewrite app_assoc.
Qed.
End Checkboxes.

(** ** Witnesses *)

Import Selection.Examples.

Lemma app_view_keys_unique_witness :
  NoDup (getAllCountryCodes data) /\ NoDup (continent_name <$> data) /\
  (forall l : list string, rev l ≡ₚ l) /\
  Forall (valid_event data) [CheckboxChange "jp"; ContinentTitleClick "Europe"] /\
  react_keys_unique (app_view data (fun p => p) (fun _ => true)
    (run_app data (initial_app data (@rev string)) [CheckboxChange "jp"; ContinentTitleClick "Europe"])).
Proof.
  assert (NoDup (getAllCountryCodes data)) as Hnd
    by (apply (bool_decide_unpack _); vm_compute; reflexivity).
  assert (NoDup (continent_name <$> data)) as Hn
    by (apply (bool_decide_unpack _); vm_compute; reflexivity).
  assert (forall l : list string, rev l ≡ₚ l) as Hrev
    by (intros l; symmetry; apply Permutation_rev).
  assert (Forall (valid_event data) [CheckboxChange "jp"; ContinentTitleClick "Europe"]) as Hev.
  { constructor; [|constructor; [exact I|constructor]].
    cbn [valid_event]. apply (bool_decide_unpack _). vm_compute. reflexivity. }
  split; [exact Hnd|]. split; [exact Hn|]. split; [exact Hrev|]. split; [exact Hev|].
  by apply app_view_keys_unique.
Defined.

Lemma buttons_match_checkboxes_witness :
  NoDup (continent_name <$> data) /\ europe ∈ data /\
  sec_selectAllDisabled (continent_section data (fun p => p) (fun _ => true) ∅ ["fr"; "de"] europe)
    = true.
Proof.
  assert (NoDup (continent_name <$> data)) as Hn
    by (apply (bool_decide_unpack _); vm_compute; reflexivity).
  assert (europe ∈ data) as He by (left).
  split; [exact Hn|]. split; [exact He|].
  rewrite (proj1 (buttons_match_checkboxes data (fun p => p) (fun _ => true) ∅ ["fr"; "de"] europe Hn He)).
  reflexivity.
Defined.
