(* ===== verification/SelectionSpec.v ===== *)
(** * The selection as a set of codes

    spec.md treats the selection UI as a caller that supplies a set of
    countries.  [SelSpec] is that view of App's state: a [gset] of
    country codes, with one step per click of [UIEvent]:
    - a checkbox toggles its code's membership;
    - "Select All" adds the continent's codes, "Deselect All" removes
      them (a continent that is not found changes nothing);
    - "Random" makes the selection the codes it drew;
    - the Hide/Show button and the continent titles leave it alone.

    [selection_refines_set] shows that App's handlers (Selection.v)
    implement these steps on the set of codes of their list, for every
    sequence of clicks, the disabled buttons included.  The list keeps
    more than the set, its order: the composite depends on the order
    only through the failed flags (see [failed_source_counts_in_mean]
    and [selection_order_irrelevant]). *)

From stdpp Require Import strings gmap.
From S2P Require Import Prelude Selection.

Local Open Scope nat_scope.

Module SelSpec.
Section Steps.
Variable countriesData : list Continent.

Definition codes_of (n : string) : gset string :=
  match findContinent countriesData n with
  | Some ct => list_to_set (code <$> countries ct)
  | None => ∅
  end.

Definition step (S : gset string) (e : UIEvent) : gset string :=
  match e with
  | CheckboxChange c => if decide (c ∈ S) then S ∖ {[c]} else S ∪ {[c]}
  | SelectAllClick n => S ∪ codes_of n
  | DeselectAllClick n => S ∖ codes_of n
  | RandomClick sortRandom => list_to_set (getRandomCountries countriesData sortRandom 2)
  | ToggleListClick | ContinentTitleClick _ => S
  end.

Definition run (S : gset string) (evs : list UIEvent) : gset string := foldl step S evs.
End Steps.
End SelSpec.

(** The abstraction: the set of codes of the selection list. *)
Definition sel_set (sel : list string) : gset string := list_to_set sel.

Section Refinement.
Variable countriesData : list Continent.

Lemma elem_of_sel_set sel x : x ∈ sel_set sel <-> x ∈ sel.
Proof. apply elem_of_list_to_set. Qed.

Lemma elem_of_codes_of n x ct :
  findContinent countriesData n = Some ct ->
  x ∈ SelSpec.codes_of countriesData n <-> x ∈ code <$> countries ct.
Proof. intros Hf. unfold SelSpec.codes_of. rewrite Hf. apply elem_of_list_to_set. Qed.

(** Both continent buttons, enabled or not, act on the set. *)
Lemma continent_click_set n (b : bool) sel (disabled : bool) :
  (disabled = true -> if b then SelSpec.codes_of countriesData n ⊆ sel_set sel
                      else disjoint (SelSpec.codes_of countriesData n) (sel_set sel)) ->
  sel_set (if disabled then sel else handleSelectAllInContinent countriesData n b sel) =
  (if b then sel_set sel ∪ SelSpec.codes_of countriesData n
   else sel_set sel ∖ SelSpec.codes_of countriesData n).
Proof.
  intros Hdis. destruct disabled.
  - specialize (Hdis eq_refl). destruct b; set_solver.
  - unfold handleSelectAllInContinent.
    destruct (findContinent countriesData n) as [ct|] eqn:Ef.
    + apply set_eq. intros x.
      destruct b; rewrite ?elem_of_union, ?elem_of_difference, (elem_of_codes_of _ _ _ Ef),
        !elem_of_sel_set, ?elem_of_app, ?list_elem_of_filter;
        destruct (decide (x ∈ sel)); tauto.
    + unfold SelSpec.codes_of. rewrite Ef. destruct b; set_solver.
Qed.

Lemma areAllSelected_subset sel n :
  areAllSelected countriesData sel n = true -> SelSpec.codes_of countriesData n ⊆ sel_set sel.
Proof.
  unfold areAllSelected, SelSpec.codes_of. destruct (findContinent _ _) as [ct|]; [|done].
  rewrite forallb_forall. intros Hall x. rewrite elem_of_list_to_set, elem_of_sel_set.
  intros (country & -> & Hin)%list_elem_of_fmap. apply includes_spec, Hall.
  by apply list_elem_of_In.
Qed.

Lemma areNoneSelected_disjoint sel n :
  areNoneSelected countriesData sel n = true -> disjoint (SelSpec.codes_of countriesData n) (sel_set sel).
Proof.
  unfold areNoneSelected, SelSpec.codes_of. destruct (findContinent _ _) as [ct|]; [|set_solver].
  rewrite forallb_forall. intros Hnone x. rewrite elem_of_list_to_set, elem_of_sel_set.
  intros (country & -> & Hin)%list_elem_of_fmap Hsel.
  apply list_elem_of_In, Hnone, negb_true_iff in Hin. apply includes_spec in Hsel. congruence.
Qed.

Lemma app_step_set s e :
  sel_set (selectedCountries (app_step countriesData s e)) =
  SelSpec.step countriesData (sel_set (selectedCountries s)) e.
Proof.
  destruct e as [c|n|n|sr| |n]; cbn [app_step SelSpec.step]; unfold_props; try done.
  - cbn [selectedCountries]. unfold handleCountrySelect.
    destruct (includes (selectedCountries s) c) eqn:Ei; simpl;
      [rewrite decide_True by (by apply elem_of_sel_set, includes_spec)
      |rewrite decide_False by (rewrite elem_of_sel_set, <-includes_spec; congruence)];
      apply set_eq; intros x;
      rewrite ?elem_of_union, ?elem_of_difference, ?elem_of_singleton, !elem_of_sel_set,
        ?elem_of_app, ?list_elem_of_filter, ?list_elem_of_singleton; tauto.
  - rewrite <-(continent_click_set n true (selectedCountries s) (areAllSelected _ _ _))
      by apply areAllSelected_subset.
    by destruct (areAllSelected _ _ _).
  - rewrite <-(continent_click_set n false (selectedCountries s) (areNoneSelected _ _ _))
      by apply areNoneSelected_disjoint.
    by destruct (areNoneSelected _ _ _).
Qed.

(** C15.  Refinement of the set view of the selection: for every
    sequence of clicks, the set of codes of App's [selectedCountries]
    is what the set-level steps of [SelSpec] give from the set of the
    initial selection: the checkbox toggles a code, "Select All" and
    "Deselect All" add and remove a continent's codes (disabled or
    not), Random replaces the set. *)
Theorem selection_refines_set s evs :
  sel_set (selectedCountries (run_app countriesData s evs)) =
  SelSpec.run countriesData (sel_set (selectedCountries s)) evs.
Proof.
  unfold run_app, SelSpec.run. revert s.
  induction evs as [|e evs IH]; intros s; [done|]. simpl. by rewrite IH, app_step_set.
Qed.
End Refinement.
