(* ===== verification/System.v ===== *)
(** * The page: App, CombinedFlag and the compositor together

    Sources: src/src/App.tsx, lines 37-67 and 72 (every handler that
    calls [setSelectedCountries], and the prop passed to
    [<CombinedFlag>]), and src/src/components/CombinedFlag.tsx, lines
    163-167 (the flag URLs of the selection and the call of
    [calculateAveragePixels]).

    A [World] is the state of the page: the App state and the
    CombinedFlag system of [CombinedFlag].  [world_step] runs a click
    and, when the click's handler calls [setSelectedCountries], the
    effect of CombinedFlag on the new array: each call stores a new
    array, and the effect's dependency [[selectedCountries]] is
    compared by reference, so the effect runs again even when the codes
    are the same.  A [FlagSettle k] event is the settlement of request
    [k].  The request's promise is [compose_flags]: the compositor on
    the flag URLs of the selection, with a fresh canvas whose 2D context
    is [ctx0], its loads completing in source order (by
    [calculateAveragePixels_order_independent] every order gives the
    same promise).

    The theorems show that CombinedFlag always renders the App's
    current selection, that a request always settles so the spinner
    goes away, that a click followed by its request's settlement shows
    the specification's composite of the selected flags, that two
    clicks whose requests settle newest first leave the first
    selection's composite on screen, that the order of a selection
    whose flags all load does not change the composite, and that the
    Random button restarts the composite even when it draws the
    countries already selected. *)

From stdpp Require Import strings gmap.
From S2P Require Import Prelude JsRuntime Canvas Compositor CompositorSpec CombinedFlag Selection Views.

Local Open Scope nat_scope.
Set Default Proof Using "All".

Record World := mkWorld { w_app : AppState; w_flag : Sys }.

Inductive WEvent :=
| UI (e : UIEvent)
| FlagSettle (k : nat).

Section Page.
Context {Img C : Type} `{!Canvas2D Img C}.
Variable countriesData : list Continent.
Variable resolve : string -> string.
Variable decode : string -> option Img.
Variable ctx0 : C.

(** CombinedFlag.tsx, lines 163-165. *)
Definition flagUrls (sel : list string) : list string := flag_href resolve <$> sel.

(** Line 167: the promise of the request for [sel]. *)
Definition compose_flags (sel : list string) : promise string CompositeError :=
  calculateAveragePixels (Some ctx0) decode (flagUrls sel) (seq 0 (length sel)).

(** Whether the click calls [setSelectedCountries]: the checkbox
    (App.tsx lines 37-43), an enabled continent button whose continent
    is found (lines 45-62; line 48 returns early otherwise) and the
    Random button (lines 64-67). *)
Definition sets_selection (s : AppState) (e : UIEvent) : bool :=
  match e with
  | CheckboxChange _ | RandomClick _ => true
  | SelectAllClick n =>
      negb (areAllSelected countriesData (selectedCountries s) n) &&
      bool_decide (is_Some (findContinent countriesData n))
  | DeselectAllClick n =>
      negb (areNoneSelected countriesData (selectedCountries s) n) &&
      bool_decide (is_Some (findContinent countriesData n))
  | ToggleListClick | ContinentTitleClick _ => false
  end.

Definition world_step (w : World) (ev : WEvent) : World :=
  match ev with
  | UI e =>
      let a := app_step countriesData (w_app w) e in
      if sets_selection (w_app w) e
      then mkWorld a (sys_step compose_flags (w_flag w) (Select (selectedCountries a)))
      else mkWorld a (w_flag w)
  | FlagSettle k => mkWorld (w_app w) (sys_step compose_flags (w_flag w) (Settle k))
  end.

(** The mount: App's initial state, and CombinedFlag's effect, which
    runs once after the first render with the initial selection. *)
Definition initial_world (sortRandom : list string -> list string) : World :=
  let a := initial_app countriesData sortRandom in
  mkWorld a (sys_step compose_flags initial_sys (Select (selectedCountries a))).

Definition run_world (w : World) (evs : list WEvent) : World := foldl world_step w evs.

(** What the page shows for an outcome of the specification: the data
    URL of the composite (an empty URL shows "No combined flag
    available"), the error message, or the prompt. *)
Definition shows (v : View) (n : nat) (o : Spec.outcome) : Prop :=
  match o with
  | Spec.Composite r =>
      v = if decide (encodePNG r = "") then NoFlagView n else FlagView (encodePNG r) n
  | Spec.AllFailed | Spec.SurfaceUnavailable => v = ErrorView failure_message
  | Spec.NoInput => v = NoSelectionView
  end.
End Page.

(** ** CombinedFlag renders the App's selection *)

Section Consistency.
Context {Img C : Type} `{!Canvas2D Img C}.
Variable countriesData : list Continent.
Variable resolve : string -> string.
Variable decode : string -> option Img.
Variable ctx0 : C.

(** A continent button whose click does not call [setSelectedCountries]:
    disabled, or its continent is not found. *)
Lemma continent_click_unchanged n b sel (disabled : bool) :
  negb disabled && bool_decide (is_Some (findContinent countriesData n)) = false ->
  (if disabled then sel else handleSelectAllInContinent countriesData n b sel) = sel.
Proof.
  destruct disabled; [done|]. cbn. unfold handleSelectAllInContinent.
  destruct (findContinent countriesData n); [|done]. intros H.
  apply bool_decide_eq_false in H. by destruct H.
Qed.

(** A click that does not call [setSelectedCountries] leaves the
    selection as it was. *)
Lemma sets_selection_false s e :
  sets_selection countriesData s e = false ->
  selectedCountries (app_step countriesData s e) = selectedCountries s.
Proof.
  destruct e as [c|n|n|sr| |n]; cbn [sets_selection]; try done; intros H.
  - simpl. destruct (areAllSelected _ _ _) eqn:E; [done|].
    exact (continent_click_unchanged n true _ false H).
  - simpl. destruct (areNoneSelected _ _ _) eqn:E; [done|].
    exact (continent_click_unchanged n false _ false H).
Qed.

Lemma sys_sel_select s sel :
  sys_sel (sys_step (compose_flags resolve decode ctx0) s (Select sel)) = sel.
Proof. rewrite sys_step_select. by destruct sel. Qed.

Lemma sys_sel_settle s k :
  sys_sel (sys_step (compose_flags resolve decode ctx0) s (Settle k)) = sys_sel s.
Proof. by destruct (sys_step_settle (compose_flags resolve decode ctx0) s k) as [->|(? & _ & _ & ->)]. Qed.

Lemma world_step_consistent w ev :
  sys_sel (w_flag w) = selectedCountries (w_app w) ->
  sys_sel (w_flag (world_step countriesData resolve decode ctx0 w ev)) =
    selectedCountries (w_app (world_step countriesData resolve decode ctx0 w ev)).
Proof.
  intros H. destruct ev as [e|k]; cbn [world_step].
  - destruct (sets_selection countriesData (w_app w) e) eqn:Es; simpl.
    + apply sys_sel_select.
    + by rewrite sets_selection_false.
  - cbn [w_flag w_app]. by rewrite sys_sel_settle.
Qed.

(** C14.  CombinedFlag always renders the App's current selection: in
    every run of clicks and settlements from the mount, the selection
    CombinedFlag's effect last ran on is App's [selectedCountries], the
    array App passes as the prop (App.tsx line 72).  So "Processing n
    countries" and "n countries selected" count the App's selection. *)
Theorem page_props_consistent sortRandom evs :
  let w := run_world countriesData resolve decode ctx0
             (initial_world countriesData resolve decode ctx0 sortRandom) evs in
  sys_sel (w_flag w) = selectedCountries (w_app w).
Proof.
  unfold run_world.
  apply (foldl_invariant (fun w => sys_sel (w_flag w) = selectedCountries (w_app w))).
  - apply sys_sel_select.
  - intros w ev. apply world_step_consistent.
Qed.

(** C17.  The Random button restarts the composite even when it draws
    the countries already selected: [setSelectedCountries] stores a new
    array, the effect runs again, a new request is made and the flag
    shown gives way to "Generating combined flag...".  spec.md section 2
    has the Compositor invoked when the input set changes. *)
Theorem random_redraw_restarts w sortRandom :
  getRandomCountries countriesData sortRandom 2 = selectedCountries (w_app w) ->
  selectedCountries (w_app w) <> [] ->
  let w' := world_step countriesData resolve decode ctx0 w (UI (RandomClick sortRandom)) in
  selectedCountries (w_app w') = selectedCountries (w_app w) /\
  sys_pending (w_flag w') !! sys_next (w_flag w) = Some (selectedCountries (w_app w)) /\
  view (w_flag w') = LoadingView (length (selectedCountries (w_app w))).
Proof.
  intros Hr Hne. cbn [world_step sets_selection app_step selectedCountries w_app w_flag].
  rewrite Hr, sys_step_select. destruct (selectedCountries (w_app w)) as [|x l]; [done|].
  split; [done|]. split; [cbn [sys_pending]; by rewrite lookup_insert_eq|]. reflexivity.
Qed.
(** C34.  Boundary: with data that lists no country, the page mounts
    with an empty selection, shows the prompt "No flags select for
    mixing" and starts no request; a Random click keeps it so. *)
Theorem mount_without_countries sortRandom :
  getAllCountryCodes countriesData = [] -> (forall l, sortRandom l ≡ₚ l) ->
  let w := initial_world countriesData resolve decode ctx0 sortRandom in
  let w' := world_step countriesData resolve decode ctx0 w (UI (RandomClick sortRandom)) in
  selectedCountries (w_app w) = [] /\ view (w_flag w) = NoSelectionView /\
  sys_pending (w_flag w) = ∅ /\
  view (w_flag w') = NoSelectionView /\ sys_pending (w_flag w') = ∅.
Proof.
  intros Hnone Hperm w w'.
  assert (getRandomCountries countriesData sortRandom 2 = []) as Hr.
  { unfold getRandomCountries. rewrite Hnone.
    pose proof (Hperm []) as Hp. symmetry in Hp. apply Permutation_nil in Hp. by rewrite Hp. }
  subst w' w. unfold initial_world. cbn [world_step sets_selection app_step initial_app
    selectedCountries w_app w_flag]. rewrite Hr. repeat split.
Qed.
End Consistency.

(** ** The page against the specification *)

Section PageRefinement.
Context {Img C : Type} `{!Canvas2D Img C} `{!CanvasLaws Img C}.
Variable countriesData : list Continent.
Variable resolve : string -> string.
Variable decode : string -> option Img.
Variable ctx0 : C.

Lemma length_flagUrls sel : length (flagUrls resolve sel) = length sel.
Proof. apply length_fmap. Qed.

(** Every request of the page settles: its promise is never pending
    once its loads have fired. *)
Lemma compose_flags_settled sel : compose_flags resolve decode ctx0 sel <> Pending.
Proof.
  unfold compose_flags. destruct (decide (sel = [])) as [->|Hne]; [discriminate|].
  rewrite calculateAveragePixels_composite.
  - unfold composite_result. case_decide; discriminate.
  - by destruct sel.
  - by rewrite length_flagUrls.
Qed.

Lemma compose_flags_refines sel :
  holes_trailing (decode <$> flagUrls resolve sel) ->
  (Z.of_nat (length (present (decode <$> flagUrls resolve sel))) <= 16843009)%Z ->
  refines (compose_flags resolve decode ctx0 sel)
    (Spec.composite buffer_len (decoded_rasters decode (flagUrls resolve sel))).
Proof.
  intros Htr Hb. apply compositor_refines; [|done..]. by rewrite length_flagUrls.
Qed.

Lemma spec_composite_not_NoInput urls :
  urls <> [] -> Spec.composite buffer_len (decoded_rasters decode urls) <> Spec.NoInput.
Proof.
  intros Hne. rewrite spec_composite_nonempty by (unfold decoded_rasters; by destruct urls).
  by destruct (present _).
Qed.

(** The view after the request for a non-empty [sel], started from any
    state, settles. *)
Lemma settle_new_request s sel :
  sel <> [] ->
  view (sys_step (compose_flags resolve decode ctx0)
          (sys_step (compose_flags resolve decode ctx0) s (Select sel)) (Settle (sys_next s))) =
  render sel (settle_handler (compose_flags resolve decode ctx0 sel)
                (mkCFState (combinedFlagUrl (sys_state s)) true "")).
Proof.
  intros Hne. rewrite sys_step_select. destruct sel as [|x l]; [done|].
  cbn [sys_step sys_pending sys_next]. rewrite lookup_insert_eq.
  pose proof (compose_flags_settled (x :: l)) as Hp.
  destruct (compose_flags resolve decode ctx0 (x :: l)); done.
Qed.

(** C3.  End to end: a click that changes the selection to a non-empty
    [sel], followed by the settlement of the request it started, shows
    what the specification's Compositor gives for the flags of [sel]:
    the composite's data URL, or the error message when no flag loads.
    As for the compositor alone, the failed flags must come after the
    loaded ones and at most 16843009 flags may load. *)
Theorem click_settle_refines w e :
  sets_selection countriesData (w_app w) e = true ->
  let sel := selectedCountries (app_step countriesData (w_app w) e) in
  sel <> [] -> holes_trailing (decode <$> flagUrls resolve sel) ->
  (Z.of_nat (length (present (decode <$> flagUrls resolve sel))) <= 16843009)%Z ->
  shows (view (w_flag (run_world countriesData resolve decode ctx0 w
                         [UI e; FlagSettle (sys_next (w_flag w))])))
    (length sel) (Spec.composite buffer_len (decoded_rasters decode (flagUrls resolve sel))).
Proof.
  intros Hs sel Hne Htr Hb. unfold run_world. cbn [foldl world_step]. rewrite Hs.
  cbn [w_flag]. fold sel. rewrite settle_new_request by done.
  pose proof (compose_flags_refines sel Htr Hb) as Hr.
  pose proof (spec_composite_not_NoInput (flagUrls resolve sel)) as HnI.
  destruct (Spec.composite _ _) as [| | |r];
    destruct (compose_flags resolve decode ctx0 sel) as [|url|[]]; cbn in Hr; try done;
    unfold render, shows; rewrite decide_False by done; cbn;
    try (rewrite decide_True by (unfold failure_message; discriminate); reflexivity).
  - exfalso. apply HnI; [|done]. unfold flagUrls. by destruct sel.
  - subst url. rewrite decide_False by tauto.
    destruct (decide (encodePNG r = "")); [rewrite decide_False by tauto|rewrite decide_True by done];
    done.
Qed.

(** Two duplicate-free lists with the same set are permutations. *)
Lemma NoDup_same_set_perm (l1 l2 : list string) :
  NoDup l1 -> NoDup l2 -> (list_to_set l1 : gset string) = list_to_set l2 -> l1 ≡ₚ l2.
Proof.
  intros H1 H2 Hs. apply NoDup_Permutation; [done|done|].
  intros x. rewrite <-!(elem_of_list_to_set (C:=gset string)). by rewrite Hs.
Qed.

(** A click that calls [setSelectedCountries]: App's step, then the
    effect on the new selection. *)
Lemma world_step_sets w e :
  sets_selection countriesData (w_app w) e = true ->
  world_step countriesData resolve decode ctx0 w (UI e) =
  mkWorld (app_step countriesData (w_app w) e)
    (sys_step (compose_flags resolve decode ctx0) (w_flag w)
       (Select (selectedCountries (app_step countriesData (w_app w) e)))).
Proof. intros H. cbn [world_step]. by rewrite H. Qed.

(** A request whose flags all load is fulfilled. *)
Lemma compose_flags_fulfilled sel :
  sel <> [] -> Forall (fun c => is_Some (decode (flag_href resolve c))) sel ->
  exists u, compose_flags resolve decode ctx0 sel = Fulfilled u.
Proof.
  intros Hne Hall. unfold compose_flags.
  rewrite calculateAveragePixels_composite; [|unfold flagUrls; by destruct sel|by rewrite length_flagUrls].
  unfold composite_result. rewrite decide_False; [by eexists|].
  destruct sel as [|c sel]; [done|]. apply Forall_cons in Hall as [[img Himg] _].
  cbn [flagUrls fmap list_fmap]. rewrite Himg, present_cons_Some. done.
Qed.

(** Two selections in a row, then their requests settle newest first. *)
Lemma two_selections_settle_reversed s A B uA uB :
  A <> [] -> B <> [] ->
  compose_flags resolve decode ctx0 A = Fulfilled uA ->
  compose_flags resolve decode ctx0 B = Fulfilled uB ->
  sys_state (foldl (sys_step (compose_flags resolve decode ctx0)) s
    [Select A; Select B; Settle (S (sys_next s)); Settle (sys_next s)]) =
  mkCFState uA false "".
Proof.
  intros HA HB HcA HcB. destruct A as [|a A]; [done|]. destruct B as [|b B]; [done|].
  cbn [foldl sys_step effect sys_state sys_pending sys_next].
  rewrite lookup_insert_eq, HcB. cbn [sys_pending sys_state settle_handler on_then error].
  rewrite lookup_delete_ne, lookup_insert_ne, lookup_insert_eq, HcA by lia. done.
Qed.

(** C9.  The stale composite is reachable by clicks, with the real
    compositor: two clicks that change the selection to [A] and then to
    [B], whose flags all load, followed by the settlement of [B]'s
    request and then [A]'s, leave the page showing [A]'s composite
    labelled with [B]'s count.  spec.md section 5 asks that only the
    latest request's outcome be delivered. *)
Theorem page_stale_composite w e1 e2 :
  let w1 := world_step countriesData resolve decode ctx0 w (UI e1) in
  let w2 := world_step countriesData resolve decode ctx0 w1 (UI e2) in
  let A := selectedCountries (w_app w1) in
  let B := selectedCountries (w_app w2) in
  sets_selection countriesData (w_app w) e1 = true ->
  sets_selection countriesData (w_app w1) e2 = true ->
  A <> [] -> B <> [] ->
  Forall (fun c => is_Some (decode (flag_href resolve c))) A ->
  Forall (fun c => is_Some (decode (flag_href resolve c))) B ->
  exists uA, compose_flags resolve decode ctx0 A = Fulfilled uA /\
    view (w_flag (run_world countriesData resolve decode ctx0 w2
                    [FlagSettle (S (sys_next (w_flag w))); FlagSettle (sys_next (w_flag w))])) =
    if decide (uA <> "") then FlagView uA (length B) else NoFlagView (length B).
Proof.
  intros w1 w2 A B H1 H2 HA HB HlA HlB.
  destruct (compose_flags_fulfilled A HA HlA) as [uA HcA].
  destruct (compose_flags_fulfilled B HB HlB) as [uB HcB].
  exists uA. split; [done|].
  assert (w_flag (run_world countriesData resolve decode ctx0 w2
            [FlagSettle (S (sys_next (w_flag w))); FlagSettle (sys_next (w_flag w))]) =
          foldl (sys_step (compose_flags resolve decode ctx0)) (w_flag w)
            [Select A; Select B; Settle (S (sys_next (w_flag w))); Settle (sys_next (w_flag w))])
    as ->.
  { subst w2 w1 A B. rewrite (world_step_sets w e1 H1) in H2 |- *.
    unfold run_world. cbn [foldl]. rewrite (world_step_sets _ e2 H2). done. }
  unfold view at 1. rewrite (two_selections_settle_reversed _ A B uA uB) by done.
  assert (sys_sel (foldl (sys_step (compose_flags resolve decode ctx0)) (w_flag w)
    [Select A; Select B; Settle (S (sys_next (w_flag w))); Settle (sys_next (w_flag w))]) = B)
    as -> by (cbn [foldl]; by rewrite !sys_sel_settle, sys_sel_select).
  unfold render. rewrite decide_False by done. done.
Qed.

(** C16.  When every selected flag loads, the composite depends only
    on the set of selected countries, not on the order in which they
    were selected: the [Uint32Array] additions commute and the divisor
    is the number of flags.  (With a failed flag the order matters, see
    [failed_source_counts_in_mean].) *)
Theorem selection_order_irrelevant sel1 sel2 :
  NoDup sel1 -> NoDup sel2 -> (list_to_set sel1 : gset string) = list_to_set sel2 ->
  Forall (fun c => is_Some (decode (flag_href resolve c))) sel1 ->
  compose_flags resolve decode ctx0 sel1 = compose_flags resolve decode ctx0 sel2.
Proof.
  intros H1 H2 Hs Hall. pose proof (NoDup_same_set_perm _ _ H1 H2 Hs) as Hp.
  destruct sel1 as [|c sel1]; [by apply Permutation_nil in Hp as ->|].
  assert (sel2 <> []) as Hne2 by (intros ->; symmetry in Hp; by apply Permutation_nil_cons in Hp).
  unfold compose_flags. rewrite !calculateAveragePixels_composite;
    [|by destruct sel2|by rewrite length_flagUrls|done|by rewrite length_flagUrls].
  apply composite_result_perm.
  - unfold flagUrls. by rewrite Hp.
  - unfold flagUrls. rewrite <-list_fmap_compose. by apply Forall_fmap.
Qed.

Lemma w_flag_run_settles w ks :
  w_flag (run_world countriesData resolve decode ctx0 w (FlagSettle <$> ks)) =
  foldl (sys_step (compose_flags resolve decode ctx0)) (w_flag w) (Settle <$> ks).
Proof. revert w. induction ks as [|k ks IH]; intros w; [done|]. apply IH. Qed.

(** Settling each request in flight once, in any order, empties the map
    of requests in flight. *)
Lemma settle_all s ks :
  NoDup ks -> (forall k, is_Some (sys_pending s !! k) <-> k ∈ ks) ->
  sys_pending (foldl (sys_step (compose_flags resolve decode ctx0)) s (Settle <$> ks)) = ∅.
Proof.
  revert s. induction ks as [|k ks IH]; intros s Hnd Hk.
  - apply map_empty. intros j. apply eq_None_not_Some. rewrite Hk. apply not_elem_of_nil.
  - apply NoDup_cons in Hnd as [Hk' Hnd].
    destruct (sys_pending s !! k) as [sel|] eqn:E;
      [|exfalso; apply (eq_None_not_Some (sys_pending s !! k)); [done|]; apply Hk; by left].
    assert (sys_step (compose_flags resolve decode ctx0) s (Settle k) =
      mkSys (sys_sel s) (settle_handler (compose_flags resolve decode ctx0 sel) (sys_state s))
        (delete k (sys_pending s)) (sys_next s)) as Hstep.
    { cbn [sys_step]. rewrite E. pose proof (compose_flags_settled sel).
      by destruct (compose_flags resolve decode ctx0 sel). }
    rewrite fmap_cons. cbn [foldl]. rewrite Hstep. apply IH; [done|].
    intros j. cbn [sys_pending]. rewrite lookup_delete. case_decide as Hj.
    + subst j. split; [by intros []|done].
    + rewrite Hk, elem_of_cons. split; [intros [->|?]; [by destruct Hj|done]|by right].
Qed.

Lemma run_world_loading_inv w evs :
  loading_inv (w_flag w) ->
  loading_inv (w_flag (run_world countriesData resolve decode ctx0 w evs)).
Proof.
  intros H. apply (foldl_invariant (fun w => loading_inv (w_flag w))); [done|].
  intros w' [e|k] Hw; cbn [world_step]; [destruct (sets_selection _ _ _)|]; cbn [w_flag];
    by try apply loading_inv_step.
Qed.

(** C10.  The spinner stops: from any state the page reaches, once each
    request in flight has settled (in any order), no request is in
    flight and the page does not show "Generating combined flag...".
    Every request settles, because the compositor's promise is settled
    once its loads have fired. *)
Theorem spinner_stops sortRandom evs ks :
  let w := run_world countriesData resolve decode ctx0
             (initial_world countriesData resolve decode ctx0 sortRandom) evs in
  NoDup ks -> (forall k, is_Some (sys_pending (w_flag w) !! k) <-> k ∈ ks) ->
  let w' := run_world countriesData resolve decode ctx0 w (FlagSettle <$> ks) in
  sys_pending (w_flag w') = ∅ /\ forall n, view (w_flag w') <> LoadingView n.
Proof.
  intros w Hnd Hk w'.
  assert (sys_pending (w_flag w') = ∅) as Hp
    by (unfold w'; rewrite w_flag_run_settles; by apply settle_all).
  split; [done|]. intros n Hv. apply render_loading in Hv.
  assert (loading_inv (w_flag w')) as Hinv; [|by apply Hinv].
  apply run_world_loading_inv, run_world_loading_inv. by apply loading_inv_step.
Qed.
End PageRefinement.

(** ** Witnesses *)

Module Examples.
Import Selection.Examples CompositorSpec.Examples SolidCanvas.

(** France's flag is the red test flag, Germany's the blue one; the
    others are missing. *)
Definition ex_resolve (p : string) : string :=
  if String.eqb p (flag_path "fr") then "red.svg"
  else if String.eqb p (flag_path "de") then "blue.svg"
  else "missing.svg".

Definition mounted : World := initial_world data ex_resolve flag_decode blank (@rev string).
End Examples.

Import Selection.Examples CompositorSpec.Examples SolidCanvas System.Examples.

Lemma random_redraw_restarts_witness :
  getRandomCountries data (@rev string) 2 = selectedCountries (w_app mounted) /\
  selectedCountries (w_app mounted) <> [] /\
  view (w_flag (world_step data ex_resolve flag_decode blank mounted (UI (RandomClick (@rev string)))))
    = LoadingView 2.
Proof.
  assert (getRandomCountries data (@rev string) 2 = selectedCountries (w_app mounted)) as H1
    by reflexivity.
  assert (selectedCountries (w_app mounted) <> []) as H2 by discriminate.
  split; [exact H1|]. split; [exact H2|].
  exact (proj2 (proj2 (random_redraw_restarts data ex_resolve flag_decode blank mounted
                          (@rev string) H1 H2))).
Defined.

Lemma click_settle_refines_witness :
  sets_selection data (w_app mounted) (DeselectAllClick "Asia") = true /\
  selectedCountries (app_step data (w_app mounted) (DeselectAllClick "Asia")) = ["de"] /\
  shows (view (w_flag (run_world data ex_resolve flag_decode blank mounted
                         [UI (DeselectAllClick "Asia"); FlagSettle (sys_next (w_flag mounted))])))
    1 (Spec.composite buffer_len (decoded_rasters flag_decode (flagUrls ex_resolve ["de"]))).
Proof.
  assert (sets_selection data (w_app mounted) (DeselectAllClick "Asia") = true) as Hs
    by reflexivity.
  assert (selectedCountries (app_step data (w_app mounted) (DeselectAllClick "Asia")) = ["de"])
    as Hsel by reflexivity.
  split; [exact Hs|]. split; [exact Hsel|].
  pose proof (click_settle_refines data ex_resolve flag_decode blank mounted
                (DeselectAllClick "Asia") Hs) as H. rewrite Hsel in H.
  apply H; [discriminate|vm_compute; exact I|vm_compute; discriminate].
Defined.

Lemma spinner_stops_witness :
  let w := run_world data ex_resolve flag_decode blank mounted [UI (CheckboxChange "fr")] in
  NoDup [1; 0] /\ (forall k, is_Some (sys_pending (w_flag w) !! k) <-> k ∈ [1; 0]) /\
  sys_pending (w_flag (run_world data ex_resolve flag_decode blank w (FlagSettle <$> [1; 0]))) = ∅.
Proof.
  intros w.
  assert (NoDup [1; 0]) as Hnd by (apply (bool_decide_unpack _); vm_compute; reflexivity).
  assert (sys_pending (w_flag w) = <[1 := ["jp"; "de"; "fr"]]> (<[0 := ["jp"; "de"]]> ∅))
    as Hm by reflexivity.
  assert (forall k, is_Some (sys_pending (w_flag w) !! k) <-> k ∈ [1; 0]) as Hk.
  { intros k. rewrite Hm, !lookup_insert_is_Some', lookup_empty, !elem_of_cons.
    pose proof (@is_Some_None (list string)). pose proof (not_elem_of_nil k).
    intuition congruence. }
  split; [exact Hnd|]. split; [exact Hk|].
  exact (proj1 (spinner_stops data ex_resolve flag_decode blank (@rev string)
                  [UI (CheckboxChange "fr")] [1; 0] Hnd Hk)).
Defined.

Lemma selection_order_irrelevant_witness :
  NoDup ["fr"; "de"] /\ NoDup ["de"; "fr"] /\
  (list_to_set ["fr"; "de"] : gset string) = list_to_set ["de"; "fr"] /\
  Forall (fun c => is_Some (flag_decode (flag_href ex_resolve c))) ["fr"; "de"] /\
  compose_flags ex_resolve flag_decode blank ["fr"; "de"] =
    compose_flags ex_resolve flag_decode blank ["de"; "fr"].
Proof.
  assert (NoDup ["fr"; "de"]) as H1 by (apply (bool_decide_unpack _); vm_compute; reflexivity).
  assert (NoDup ["de"; "fr"]) as H2 by (apply (bool_decide_unpack _); vm_compute; reflexivity).
  assert ((list_to_set ["fr"; "de"] : gset string) = list_to_set ["de"; "fr"]) as Hs
    by (apply (bool_decide_unpack _); vm_compute; reflexivity).
  assert (Forall (fun c => is_Some (flag_decode (flag_href ex_resolve c))) ["fr"; "de"]) as Ha
    by (constructor; [eexists; reflexivity|constructor; [eexists; reflexivity|constructor]]).
  split; [exact H1|]. split; [exact H2|]. split; [exact Hs|]. split; [exact Ha|].
  exact (selection_order_irrelevant data ex_resolve flag_decode blank _ _ H1 H2 Hs Ha).
Defined.

Lemma page_stale_composite_witness :
  let w1 := world_step data ex_resolve flag_decode blank mounted (UI (DeselectAllClick "Asia")) in
  let w2 := world_step data ex_resolve flag_decode blank w1 (UI (CheckboxChange "fr")) in
  selectedCountries (w_app w1) = ["de"] /\ selectedCountries (w_app w2) = ["de"; "fr"] /\
  exists uA, compose_flags ex_resolve flag_decode blank ["de"] = Fulfilled uA /\
    view (w_flag (run_world data ex_resolve flag_decode blank w2
                    [FlagSettle (S (sys_next (w_flag mounted))); FlagSettle (sys_next (w_flag mounted))])) =
    if decide (uA <> "") then FlagView uA 2 else NoFlagView 2.
Proof.
  intros w1 w2.
  assert (selectedCountries (w_app w1) = ["de"]) as HA by reflexivity.
  assert (selectedCountries (w_app w2) = ["de"; "fr"]) as HB by reflexivity.
  assert (sets_selection data (w_app mounted) (DeselectAllClick "Asia") = true) as H1
    by reflexivity.
  assert (sets_selection data (w_app w1) (CheckboxChange "fr") = true) as H2 by reflexivity.
  split; [exact HA|]. split; [exact HB|].
  pose proof (page_stale_composite data ex_resolve flag_decode blank mounted
                (DeselectAllClick "Asia") (CheckboxChange "fr") H1 H2) as H.
  cbv zeta in H. fold w1 in H. fold w2 in H. rewrite HA, HB in H. apply H.
  - discriminate.
  - discriminate.
  - constructor; [eexists; reflexivity|constructor].
  - constructor; [eexists; reflexivity|constructor; [eexists; reflexivity|constructor]].
Defined.

Lemma mount_without_countries_witness :
  getAllCountryCodes [mkContinent "Europe" []] = [] /\ (forall l : list string, rev l ≡ₚ l) /\
  view (w_flag (initial_world [mkContinent "Europe" []] ex_resolve flag_decode blank (@rev string)))
    = NoSelectionView.
Proof.
  assert (getAllCountryCodes [mkContinent "Europe" []] = []) as Hn by reflexivity.
  assert (forall l : list string, rev l ≡ₚ l) as Hrev
    by (intros l; symmetry; apply Permutation_rev).
  split; [exact Hn|]. split; [exact Hrev|].
  exact (proj1 (proj2 (mount_without_countries [mkContinent "Europe" []] ex_resolve flag_decode
                          blank (@rev string) Hn Hrev))).
Defined.
